(** * math_bot: the Telegram front end (src/math_bot/tg.py)

    A shallow embedding of the handlers of [tg.py] that the report
    workflow and the input dialogues are made of.  Python's string
    operations are written out on [string]; the bot API calls become
    effects that a handler emits; the report store is a [gmap]. *)

From Stdlib Require Import String Ascii ZArith Lia.
From stdpp Require Import base gmap strings list.

Open Scope Z_scope.

(* ------------------------------------------------------------------ *)
(** ** Python string operations *)

Module PyStr.

Local Open Scope string_scope.

(** A Python [str] is held as its UTF-8 encoding, the form in which
    Telegram delivers message texts.  [chars] cuts the bytes into the
    characters of the [str]: an ASCII byte on its own, any other byte
    together with the continuation bytes (10xxxxxx) that follow it. *)
Definition is_ascii (c : ascii) : bool := (nat_of_ascii c <? 128)%nat.

Definition is_cont (c : ascii) : bool :=
  (128 <=? nat_of_ascii c)%nat && (nat_of_ascii c <? 192)%nat.

Definition starts_cont (s : string) : bool :=
  match s with String c _ => is_cont c | EmptyString => false end.

Fixpoint chars (s : string) : list string :=
  match s with
  | EmptyString => []
  | String c s' =>
      if negb (is_ascii c) && starts_cont s' then
        match chars s' with
        | t :: ts => String c t :: ts
        | [] => [String c EmptyString]
        end
      else String c EmptyString :: chars s'
  end.

(** [''.join(cs)]. *)
Fixpoint str_of_chars (cs : list string) : string :=
  match cs with
  | [] => EmptyString
  | ch :: cs' => ch +:+ str_of_chars cs'
  end.

(** The UTF-8 encoding of a code point. *)
Definition byte_of (z : Z) : ascii := ascii_of_nat (Z.to_nat z).

Definition utf8_encode (cp : Z) : string :=
  if (cp <? 128)%Z then String (byte_of cp) EmptyString
  else if (cp <? 2048)%Z then
    String (byte_of (192 + cp / 64)) (String (byte_of (128 + cp mod 64)) EmptyString)
  else if (cp <? 65536)%Z then
    String (byte_of (224 + cp / 4096))
      (String (byte_of (128 + (cp / 64) mod 64))
         (String (byte_of (128 + cp mod 64)) EmptyString))
  else
    String (byte_of (240 + cp / 262144))
      (String (byte_of (128 + (cp / 4096) mod 64))
         (String (byte_of (128 + (cp / 64) mod 64))
            (String (byte_of (128 + cp mod 64)) EmptyString))).

Definition byte (c : ascii) : Z := Z.of_nat (nat_of_ascii c).

Definition decode_raw (ch : string) : Z :=
  match ch with
  | String a EmptyString => byte a
  | String a (String b EmptyString) => (byte a mod 32) * 64 + byte b mod 64
  | String a (String b (String c EmptyString)) =>
      (byte a mod 16) * 4096 + (byte b mod 64) * 64 + byte c mod 64
  | String a (String b (String c (String d EmptyString))) =>
      (byte a mod 8) * 262144 + (byte b mod 64) * 4096 + (byte c mod 64) * 64 + byte d mod 64
  | _ => -1
  end.

(** The code point of one character, [-1] for a byte sequence that is
    not the UTF-8 encoding of a code point. *)
Definition code_point (ch : string) : Z :=
  let cp := decode_raw ch in
  if ((0 <=? cp) && (cp <=? 0x10FFFF) && negb ((0xD800 <=? cp) && (cp <=? 0xDFFF)))%Z &&
     String.eqb (utf8_encode cp) ch
  then cp else -1.

(** The characters for which [str.isspace()] holds (Python's
    [Py_UNICODE_ISSPACE]): the separators [str.split()] and
    [str.strip()] remove. *)
Definition whitespace_code_points : list Z :=
  [0x09; 0x0A; 0x0B; 0x0C; 0x0D; 0x1C; 0x1D; 0x1E; 0x1F; 0x20; 0x85; 0xA0; 0x1680;
   0x2000; 0x2001; 0x2002; 0x2003; 0x2004; 0x2005; 0x2006; 0x2007; 0x2008; 0x2009;
   0x200A; 0x2028; 0x2029; 0x202F; 0x205F; 0x3000].

Definition is_space_char (ch : string) : bool :=
  existsb (fun cp => String.eqb (utf8_encode cp) ch) whitespace_code_points.

(** The code points of the digit zero of the 66 runs of ten decimal
    digits of the Unicode database (Python's [Py_UNICODE_TODECIMAL]). *)
Definition decimal_zeros : list Z :=
  [0x30; 0x660; 0x6F0; 0x7C0; 0x966; 0x9E6; 0xA66; 0xAE6; 0xB66; 0xBE6; 0xC66;
   0xCE6; 0xD66; 0xDE6; 0xE50; 0xED0; 0xF20; 0x1040; 0x1090; 0x17E0; 0x1810;
   0x1946; 0x19D0; 0x1A80; 0x1A90; 0x1B50; 0x1BB0; 0x1C40; 0x1C50; 0xA620;
   0xA8D0; 0xA900; 0xA9D0; 0xA9F0; 0xAA50; 0xABF0; 0xFF10; 0x104A0; 0x10D30;
   0x11066; 0x110F0; 0x11136; 0x111D0; 0x112F0; 0x11450; 0x114D0; 0x11650;
   0x116C0; 0x11730; 0x118E0; 0x11950; 0x11C50; 0x11D50; 0x11DA0; 0x16A60;
   0x16AC0; 0x16B50; 0x1D7CE; 0x1D7D8; 0x1D7E2; 0x1D7EC; 0x1D7F6; 0x1E140;
   0x1E2F0; 0x1E950; 0x1FBF0].

Definition decimal_value (ch : string) : option Z :=
  let cp := code_point ch in
  option_map (fun z => cp - z)
    (List.find (fun z => (z <=? cp) && (cp <? z + 10))%Z decimal_zeros).

(** [str.split()] : split on runs of whitespace, dropping empty pieces. *)
Fixpoint split_chars (cs : list string) : list string :=
  match cs with
  | [] => []
  | ch :: cs' =>
      if is_space_char ch then split_chars cs'
      else match cs' with
           | [] => [ch]
           | ch' :: _ =>
               if is_space_char ch' then ch :: split_chars cs'
               else match split_chars cs' with
                    | t :: ts => (ch +:+ t) :: ts
                    | [] => [ch]
                    end
           end
  end.

Definition split_ws (s : string) : list string := split_chars (chars s).

(** [str.split(sep)] for a one-character separator: always at least one
    piece, empty pieces kept. *)
Fixpoint split_sep (sep : ascii) (s : string) : list string :=
  match s with
  | EmptyString => [EmptyString]
  | String c s' =>
      let r := split_sep sep s' in
      if Ascii.eqb c sep then EmptyString :: r
      else match r with
           | t :: ts => String c t :: ts
           | [] => [String c EmptyString]
           end
  end.

Definition nl : ascii := ascii_of_nat 10.

(** [str.lstrip()], [str.rstrip()], [str.strip()] on the characters. *)
Fixpoint lstrip_chars (cs : list string) : list string :=
  match cs with
  | ch :: cs' => if is_space_char ch then lstrip_chars cs' else cs
  | [] => []
  end.

Fixpoint rstrip_chars (cs : list string) : list string :=
  match cs with
  | [] => []
  | ch :: cs' =>
      match rstrip_chars cs' with
      | [] => if is_space_char ch then [] else [ch]
      | r => ch :: r
      end
  end.

Definition strip (s : string) : string :=
  str_of_chars (rstrip_chars (lstrip_chars (chars s))).

(** Python's [lst[i]] on a list: [IndexError] out of range. *)
Definition py_index {A} (l : list A) (i : nat) : option A := nth_error l i.
Arguments py_index : simpl never.

(** [int] and [float] parse an ASCII text: [_PyUnicode_TransformDecimalAndSpaceToASCII]
    first keeps an all-ASCII text as it is; otherwise each character
    below U+007F is kept, a whitespace character becomes a space, a
    decimal digit becomes its ASCII digit, and any other character
    becomes "?" and ends the text. *)
Fixpoint to_ascii_chars (cs : list string) : string :=
  match cs with
  | [] => EmptyString
  | ch :: cs' =>
      let cp := code_point ch in
      if ((0 <=? cp) && (cp <? 127))%Z then ch +:+ to_ascii_chars cs'
      else if is_space_char ch then String " " (to_ascii_chars cs')
      else match decimal_value ch with
           | Some d => String (byte_of (48 + d)) (to_ascii_chars cs')
           | None => "?"
           end
  end.

Fixpoint str_forall (p : ascii -> bool) (s : string) : bool :=
  match s with
  | EmptyString => true
  | String c s' => p c && str_forall p s'
  end.

Definition all_ascii (s : string) : bool := str_forall is_ascii s.

Definition to_ascii (s : string) : string :=
  if all_ascii s then s else to_ascii_chars (chars s).

(** [Py_ISSPACE]: the ASCII whitespace that the parsers of [int] and
    [float] skip around the number. *)
Definition is_ascii_space (c : ascii) : bool :=
  match nat_of_ascii c with
  | 32%nat | 9%nat | 10%nat | 11%nat | 12%nat | 13%nat => true
  | _ => false
  end.

Fixpoint lstrip_ascii (s : string) : string :=
  match s with
  | String c s' => if is_ascii_space c then lstrip_ascii s' else s
  | EmptyString => EmptyString
  end.

Fixpoint rstrip_ascii (s : string) : string :=
  match s with
  | EmptyString => EmptyString
  | String c s' =>
      match rstrip_ascii s' with
      | EmptyString => if is_ascii_space c then EmptyString else String c EmptyString
      | r => String c r
      end
  end.

Definition strip_ascii (s : string) : string := rstrip_ascii (lstrip_ascii s).

Definition is_digit (c : ascii) : bool :=
  (48 <=? nat_of_ascii c)%nat && (nat_of_ascii c <=? 57)%nat.

Definition digit_val (c : ascii) : Z := Z.of_nat (nat_of_ascii c) - 48.

(** The digit part of [int(s)]: decimal digits, single underscores
    allowed between digits. *)
Fixpoint digits_aux (s : string) (acc : Z) (prev_us : bool) : option Z :=
  match s with
  | EmptyString => if prev_us then None else Some acc
  | String c s' =>
      if Ascii.eqb c "_" then (if prev_us then None else digits_aux s' acc true)
      else if is_digit c then digits_aux s' (10 * acc + digit_val c) false
      else None
  end.

Definition py_digits (s : string) : option Z :=
  match s with
  | String c _ => if is_digit c then digits_aux s 0 false else None
  | EmptyString => None
  end.

(** [PyLong_FromString] for base 10 on the ASCII text: surrounding
    ASCII whitespace skipped, optional sign; [None] is [ValueError]. *)
Definition py_int_ascii (s : string) : option Z :=
  match strip_ascii s with
  | String c r =>
      if Ascii.eqb c "+" then py_digits r
      else if Ascii.eqb c "-" then option_map Z.opp (py_digits r)
      else py_digits (String c r)
  | EmptyString => None
  end.

(** [int(s)] for a [str]. The limit on the number of digits that
    CPython 3.11 adds ([sys.int_max_str_digits], 4300 by default, a
    [ValueError] beyond it) is not modelled: texts of more than 4300
    digits are read as integers here. *)
Definition py_int (s : string) : option Z := py_int_ascii (to_ascii s).

(** [str(n)] for an integer; as for [int], the 4300-digit limit of
    CPython 3.11 is not modelled. *)
Fixpoint pos_digits (fuel : nat) (p : positive) (acc : string) : string :=
  match fuel with
  | O => acc
  | S f =>
      let q := Z.pos p / 10 in
      let d := String (ascii_of_nat (Z.to_nat (Z.pos p mod 10) + 48)) acc in
      match q with
      | Z.pos q' => pos_digits f q' d
      | _ => d
      end
  end.

Definition py_str_Z (z : Z) : string :=
  match z with
  | Z0 => "0"
  | Z.pos p => pos_digits (Pos.size_nat p) p EmptyString
  | Z.neg p => String "-" (pos_digits (Pos.size_nat p) p EmptyString)
  end.

(** A [digitpart] of Python's float grammar: a digit, then digits each
    optionally preceded by one underscore; returns what follows it. *)
Fixpoint dp_rest (s : string) : string :=
  match s with
  | String c s' =>
      if is_digit c then dp_rest s'
      else if Ascii.eqb c "_" then
        match s' with
        | String d s'' => if is_digit d then dp_rest s'' else s
        | EmptyString => s
        end
      else s
  | EmptyString => s
  end.

Definition digitpart (s : string) : option string :=
  match s with
  | String c s' => if is_digit c then Some (dp_rest s') else None
  | EmptyString => None
  end.

Definition drop_sign (s : string) : string :=
  match s with
  | String c r => if Ascii.eqb c "+" || Ascii.eqb c "-" then r else s
  | EmptyString => s
  end.

(** The exponent, if any, must end the literal. *)
Definition exp_end (s : string) : bool :=
  match s with
  | EmptyString => true
  | String e r =>
      if Ascii.eqb e "e" || Ascii.eqb e "E" then
        match digitpart (drop_sign r) with
        | Some EmptyString => true
        | _ => false
        end
      else false
  end.

Definition numeric (s : string) : bool :=
  match digitpart s with
  | Some (String c r2) =>
      if Ascii.eqb c "." then
        match digitpart r2 with Some r3 => exp_end r3 | None => exp_end r2 end
      else exp_end (String c r2)
  | Some EmptyString => true
  | None =>
      match s with
      | String c r2 =>
          if Ascii.eqb c "." then
            match digitpart r2 with Some r3 => exp_end r3 | None => false end
          else false
      | EmptyString => false
      end
  end.

Definition lower (c : ascii) : ascii :=
  let n := nat_of_ascii c in
  if (65 <=? n)%nat && (n <=? 90)%nat then ascii_of_nat (n + 32) else c.

Fixpoint lower_str (s : string) : string :=
  match s with
  | String c s' => String (lower c) (lower_str s')
  | EmptyString => EmptyString
  end.

(** [float(s)] succeeds (no [ValueError]): the ASCII text, stripped of
    ASCII whitespace, is a float literal, "inf", "infinity" or "nan",
    with an optional sign. *)
Definition py_float_valid (s : string) : bool :=
  let u := drop_sign (strip_ascii (to_ascii s)) in
  numeric u ||
  match lower_str u with
  | "inf" | "infinity" | "nan" => true
  | _ => false
  end.

(** [float(n)] for an integer [n >= 0] ([PyLong_AsDouble]): exact below
    [2^53], otherwise rounded half to even to 53 significant bits;
    [None] is the [OverflowError] of a result of [2^1024] or more. *)
Definition to_double_nonneg (n : Z) : option Z :=
  let k := Z.log2 n - 52 in
  if (k <=? 0)%Z then Some n
  else
    let p := 2 ^ k in
    let q := n / p in
    let r := n mod p in
    let q' := if Z.ltb p (2 * r) then q + 1
              else if Z.eqb (2 * r) p && Z.odd q then q + 1 else q in
    let d := q' * p in
    if Z.leb (2 ^ 1024) d then None else Some d.

(** The "E" format of a float whose value is the integer [n >= 0]:
    seven significant digits, rounded half to even, and an exponent of
    at least two digits. *)
Definition fmt_E_nonneg (n : Z) : string :=
  if Z.eqb n 0 then "0.000000E+00" else
  let e := (Z.of_nat (String.length (py_str_Z n)) - 1)%Z in
  let p := (10 ^ (e - 6))%Z in
  let q0 := if Z.leb e 6 then (n * 10 ^ (6 - e))%Z else (n / p)%Z in
  let r := if Z.leb e 6 then 0%Z else (n mod p)%Z in
  let q := if Z.leb e 6 then q0
           else if Z.ltb p (2 * r) then (q0 + 1)%Z
           else if Z.eqb (2 * r) p && Z.odd q0 then (q0 + 1)%Z else q0 in
  let '(q, e) := if Z.eqb q (10 ^ 7) then ((10 ^ 6)%Z, (e + 1)%Z) else (q, e) in
  let ds := py_str_Z q in
  let es := py_str_Z e in
  String.substring 0 1 ds +:+ "." +:+ String.substring 1 6 ds +:+ "E+" +:+
  (if Z.ltb e 10 then "0" +:+ es else es).

(** [format(n, "E")] for an integer [n]: [n] goes through [float] first;
    [None] is its [OverflowError]. *)
Definition fmt_E (n : Z) : option string :=
  if Z.ltb n 0
  then option_map (fun d => String "-" (fmt_E_nonneg d)) (to_double_nonneg (- n))
  else option_map fmt_E_nonneg (to_double_nonneg n).

End PyStr.

Import PyStr.

(* ------------------------------------------------------------------ *)
(** ** Data model *)

(** [ReportRecord.status]. *)
Inductive status := NEW | ACCEPTED | REJECTED | CLOSED.

Definition status_eqb (a b : status) : bool :=
  match a, b with
  | NEW, NEW | ACCEPTED, ACCEPTED | REJECTED, REJECTED | CLOSED, CLOSED => true
  | _, _ => false
  end.

(** A row of the report table (the id is the key of the store). *)
Record ReportRecord := mkReport {
  rr_user_id : Z;
  rr_text : string;
  rr_status : status;
  rr_link : option string
}.

(** The report table, keyed by report id. *)
Abbreviation DB := (gmap Z ReportRecord).

(** [config.Config]: the values [tg.py] reads. *)
Record Config := mkConfig {
  ADMINS : list Z;
  MAX_MATRIX : Z;
  MAX_MODULO : Z;
  MAX_ELEMENTS : Z
}.

(** The fields of a Telegram message and callback query that the
    handlers read.  [m_text] is the text of a text message; a message
    without text (a photo, a sticker) has [message.text] None, on which
    the [.strip()] and [.split()] of the handlers below raise
    [AttributeError]: such messages are not represented. *)
Record Message := mkMessage {
  m_chat_id : Z;
  m_message_id : Z;
  m_from_id : Z;
  m_text : string
}.

Record Call := mkCall {
  c_from_id : Z;
  c_data : string;
  c_message : Message
}.

(** The report id bound to [link_handling]: the string token cut from
    the report message, or the [int] parsed from callback data. *)
Inductive LinkId := LId_str (s : string) | LId_int (z : Z).

Definition fmt_link_id (i : LinkId) : string :=
  match i with LId_str s => s | LId_int z => py_str_Z z end.

(** The continuations that [register_next_step_handler] stores, with
    their bound arguments. *)
Inductive Cont :=
| K_matrix_input (action : string)
| K_ring_output (command : string)
| K_inverse_input_element
| K_inverse_output (modulo : Z)
| K_broadcast
| K_report_handling
| K_link_handling (id : LinkId).

(** Reply markups: [menu], [hide_menu], none, or inline buttons given
    as (text, callback_data). *)
Inductive Markup :=
| MK_none
| MK_menu
| MK_hide_menu
| MK_inline (buttons : list (string * string)).

(** Calls to the bot API. *)
Inductive Effect :=
| SendMessage (chat : Z) (text : string) (markup : Markup)
| ReplyTo (chat : Z) (reply_to : Z) (text : string) (markup : Markup)
| RegisterNextStep (chat : Z) (k : Cont).

Inductive PyExn :=
  ValueError | IndexError | KeyError | AttributeError | ZeroDivisionError | OverflowError.

(* ------------------------------------------------------------------ *)
(** ** The report store ([models.ReportRecord]) *)

Module Store.

(** Modelled from the spec: [models.ReportRecord.new] with [db.add] and
    [db.commit] (models.py is not in src/).  The store assigns a fresh
    id, here one past the largest id in use; the new report is [NEW]
    with no link. *)
Definition next_id (db : DB) : Z :=
  foldr Z.max 0 (map fst (map_to_list db)) + 1.

Definition new_report (db : DB) (user_id : Z) (text : string) : DB :=
  <[next_id db := mkReport user_id text NEW None]> db.

(** Modelled from the spec: how a string id taken from a message is
    matched against the integer primary key. *)
Definition db_key (id : string) : option Z := py_int id.

(** Modelled from the spec: [models.ReportRecord.get_report_by_id]. *)
Definition get_report_by_id (db : DB) (id : option Z) : option ReportRecord :=
  match id with Some i => db !! i | None => None end.

(** Modelled from the spec: the legal transitions of a report for an
    action token; any other action leaves the record as it is. *)
Definition transition (action : string) (link : option string)
    (r : ReportRecord) : ReportRecord :=
  match rr_status r with
  | NEW =>
      if String.eqb action "accept_report"
      then mkReport (rr_user_id r) (rr_text r) ACCEPTED link
      else if String.eqb action "reject_report"
      then mkReport (rr_user_id r) (rr_text r) REJECTED (rr_link r)
      else r
  | ACCEPTED =>
      if String.eqb action "close_report"
      then mkReport (rr_user_id r) (rr_text r) CLOSED (rr_link r)
      else r
  | _ => r
  end.

(** Modelled from the spec: [models.ReportRecord.change_status(db, id,
    action, link=None)]; an unknown id changes nothing. *)
Definition change_status (db : DB) (id : option Z) (action : string)
    (link : option string) : DB :=
  match id with
  | Some i =>
      match db !! i with
      | Some r => <[i := transition action link r]> db
      | None => db
      end
  | None => db
  end.

End Store.

(* ------------------------------------------------------------------ *)
(** ** The handler monad: the store, the emitted effects, exceptions *)

Record World := mkWorld { w_db : DB; w_out : list Effect }.

Inductive Result (A : Type) := Ok (a : A) | Exn (e : PyExn).
Arguments Ok {A} a.
Arguments Exn {A} e.

Definition M (A : Type) := World -> Result A * World.

Definition ret {A} (a : A) : M A := fun w => (Ok a, w).

Definition bind {A B} (m : M A) (k : A -> M B) : M B :=
  fun w => match m w with
           | (Ok a, w') => k a w'
           | (Exn e, w') => (Exn e, w')
           end.

Notation "x <- c1 ;; c2" := (bind c1 (fun x => c2))
  (at level 100, c1 at next level, right associativity).
Notation "e1 ;; e2" := (bind e1 (fun _ => e2))
  (at level 100, right associativity).

Definition raise {A} (e : PyExn) : M A := fun w => (Exn e, w).

Definition lift {A} (e : PyExn) (o : option A) : M A :=
  match o with Some a => ret a | None => raise e end.

Definition emit (e : Effect) : M unit :=
  fun w => (Ok tt, mkWorld (w_db w) (w_out w ++ [e])).

Definition get_db : M DB := fun w => (Ok (w_db w), w).

Definition put_db (db : DB) : M unit :=
  fun w => (Ok tt, mkWorld db (w_out w)).

(** [bot.send_message(chat, text, reply_markup=...)]. *)
Definition send_message (chat : Z) (text : string) (mk : Markup) : M unit :=
  emit (SendMessage chat text mk).

(** [bot.reply_to(message, text, reply_markup=...)]. *)
Definition reply_to (m : Message) (text : string) (mk : Markup) : M unit :=
  emit (ReplyTo (m_chat_id m) (m_message_id m) text mk).

(** [bot.register_next_step_handler(m, k, ...)], with [m] a message of
    chat [chat]. *)
Definition register (chat : Z) (k : Cont) : M unit :=
  emit (RegisterNextStep chat k).

Definition run {A} (h : M A) (db : DB) : Result A * World :=
  h (mkWorld db []).

(* ------------------------------------------------------------------ *)
(** ** Matrices ([matrix.Matrix]) *)

Record Matrix := mkMatrix {
  mat_n : Z;
  mat_m : Z;
  mat_rows : list (list string)
}.

(** Modelled from the spec: [Matrix.from_list] (matrix.py is not in
    src/) raises [SizesMatchError] ([None]) when the rows are not all of
    one length; [n] is the number of rows, [m] the row length.  The
    entries are kept as the number literals [float] accepted. *)
Definition Matrix_from_list (lst : list (list string)) : option Matrix :=
  match lst with
  | [] => Some (mkMatrix 0 0 [])
  | r :: rs =>
      if forallb (fun r' => Nat.eqb (length r') (length r)) rs
      then Some (mkMatrix (Z.of_nat (length lst)) (Z.of_nat (length r)) lst)
      else None
  end.

Local Open Scope string_scope.

(* ------------------------------------------------------------------ *)
(** ** Facts about the string operations *)

Lemma str_app_nil (y : string) : EmptyString +:+ y = y.
Proof. reflexivity. Qed.

Lemma str_app_cons (c : ascii) (x y : string) : String c x +:+ y = String c (x +:+ y).
Proof. reflexivity. Qed.

Lemma str_app_nil_r (s : string) : s +:+ EmptyString = s.
Proof. induction s as [|c s IH]; [done|]. by rewrite str_app_cons, IH. Qed.

Lemma str_app_assoc (x y z : string) : x +:+ (y +:+ z) = (x +:+ y) +:+ z.
Proof. induction x as [|c x IH]; [done|]. by rewrite !str_app_cons, IH. Qed.

Lemma str_forall_impl (p q : ascii -> bool) (s : string) :
  (forall c, p c = true -> q c = true) -> str_forall p s = true -> str_forall q s = true.
Proof.
  intros Hpq. induction s as [|c s IH]; simpl; [done|].
  intros [Hc Hs]%andb_true_iff. by rewrite (Hpq c Hc), (IH Hs).
Qed.

Lemma chars_cons (c : ascii) (s : string) :
  chars (String c s) =
    if negb (is_ascii c) && starts_cont s then
      match chars s with
      | t :: ts => String c t :: ts
      | [] => [String c EmptyString]
      end
    else String c EmptyString :: chars s.
Proof. reflexivity. Qed.

Lemma chars_cons_ascii (c : ascii) (s : string) :
  is_ascii c = true -> chars (String c s) = String c EmptyString :: chars s.
Proof. intros H. rewrite chars_cons, H. reflexivity. Qed.

Lemma chars_head (c : ascii) (s : string) :
  exists t ts, chars (String c s) = String c t :: ts.
Proof.
  rewrite chars_cons. destruct (negb (is_ascii c) && starts_cont s); [|by eexists _, _].
  destruct (chars s); by eexists _, _.
Qed.

Lemma chars_nil (s : string) : chars s = [] -> s = EmptyString.
Proof.
  destruct s as [|c s]; [done|]. destruct (chars_head c s) as (t & ts & E). by rewrite E.
Qed.

Lemma str_of_chars_app (xs ys : list string) :
  str_of_chars (xs ++ ys)%list = str_of_chars xs +:+ str_of_chars ys.
Proof. induction xs as [|x xs IH]; [done|]. simpl. by rewrite IH, str_app_assoc. Qed.

(** [''.join] of the characters gives the text back. *)
Lemma str_of_chars_chars (s : string) : str_of_chars (chars s) = s.
Proof.
  induction s as [|c s IH]; [done|]. rewrite chars_cons.
  destruct (negb (is_ascii c) && starts_cont s).
  - destruct (chars s) as [|t ts] eqn:E.
    + simpl in IH. subst s. reflexivity.
    + simpl in IH |- *. rewrite str_app_cons, IH. reflexivity.
  - simpl. rewrite str_app_cons, str_app_nil, IH. reflexivity.
Qed.

(** The last byte of [x] is not ASCII and [y] starts with a
    continuation byte: the two are one character in [x ++ y]. *)
Fixpoint joins (x y : string) : bool :=
  match x with
  | EmptyString => false
  | String c EmptyString => negb (is_ascii c) && starts_cont y
  | String _ x' => joins x' y
  end.

Lemma joins_starts (x y y' : string) :
  starts_cont y = starts_cont y' -> joins x y = joins x y'.
Proof.
  intros H. induction x as [|c x IH]; [done|].
  destruct x as [|c' x']; simpl; [by rewrite H|exact IH].
Qed.

Lemma joins_no_cont (x y : string) : starts_cont y = false -> joins x y = false.
Proof.
  intros H. induction x as [|c x IH]; [done|].
  destruct x as [|c' x']; simpl; [by rewrite H, andb_false_r|exact IH].
Qed.

Lemma joins_ascii (x y : string) : all_ascii x = true -> joins x y = false.
Proof.
  unfold all_ascii. induction x as [|c x IH]; [done|].
  intros [Hc Hx]%andb_true_iff.
  destruct x as [|c' x']; simpl; [by rewrite Hc|exact (IH Hx)].
Qed.

Lemma starts_cont_app (x y : string) : x <> EmptyString -> starts_cont (x +:+ y) = starts_cont x.
Proof. by destruct x. Qed.

(** [chars] of a concatenation, where no character is cut. *)
Lemma chars_app (x y : string) : joins x y = false -> chars (x +:+ y) = (chars x ++ chars y)%list.
Proof.
  induction x as [|c x IH]; intros H; [done|].
  rewrite str_app_cons. destruct x as [|c' x'].
  - simpl in H. rewrite str_app_nil, !chars_cons, H. simpl. by rewrite andb_false_r.
  - simpl in H. rewrite (chars_cons c (String c' x' +:+ y)), (chars_cons c (String c' x')).
    rewrite (IH H). rewrite (starts_cont_app (String c' x') y) by done.
    destruct (negb (is_ascii c) && starts_cont (String c' x')); [|done].
    destruct (chars_head c' x') as (t & ts & ->). reflexivity.
Qed.

(** A list of characters as [chars] gives them: each one is a single
    character and no two neighbours are one character together. *)
Inductive chars_ok : list string -> Prop :=
| chars_ok_nil : chars_ok []
| chars_ok_one g : chars g = [g] -> chars_ok [g]
| chars_ok_cons g h cs :
    chars g = [g] -> joins g h = false -> chars_ok (h :: cs) -> chars_ok (g :: h :: cs).

Lemma chars_ok_inv (g : string) (cs : list string) :
  chars_ok (g :: cs) ->
  chars g = [g] /\ chars_ok cs /\ match cs with h :: _ => joins g h = false | [] => True end.
Proof. intros H. inversion H; subst; [split; [done|split; [constructor|done]]|done]. Qed.

Lemma chars_single_ne (g : string) : chars g = [g] -> g <> EmptyString.
Proof. intros H ->. discriminate H. Qed.

Lemma chars_chars_ok (s : string) : chars_ok (chars s).
Proof.
  induction s as [|c s IH]; [constructor|]. rewrite chars_cons.
  destruct (negb (is_ascii c) && starts_cont s) eqn:Hj.
  - destruct s as [|d s']; [by rewrite andb_false_r in Hj|].
    destruct (chars_head d s') as (t & ts & E). rewrite E in IH |- *.
    apply chars_ok_inv in IH as (Ht & Hts & Hn).
    assert (Hg : chars (String c (String d t)) = [String c (String d t)]).
    { rewrite chars_cons, Ht. simpl in Hj |- *. by rewrite Hj. }
    destruct ts as [|h ts']; [by constructor|].
    constructor; [done| |done]. simpl. exact Hn.
  - assert (Hg : chars (String c EmptyString) = [String c EmptyString]).
    { rewrite chars_cons. simpl. by rewrite andb_false_r. }
    destruct s as [|d s']; [by constructor|].
    destruct (chars_head d s') as (t & ts & E). rewrite E in IH |- *.
    constructor; [done| |done]. simpl. exact Hj.
Qed.

Lemma chars_ok_str (cs : list string) : chars_ok cs -> chars (str_of_chars cs) = cs.
Proof.
  induction 1 as [|g Hg|g h cs Hg Hj Hok IH].
  - done.
  - simpl. by rewrite str_app_nil_r.
  - change (str_of_chars (g :: h :: cs)) with (g +:+ str_of_chars (h :: cs)).
    rewrite chars_app, Hg, IH; [done|].
    rewrite <- Hj. apply joins_starts.
    apply chars_ok_inv in Hok as (Hh & _). simpl.
    by apply starts_cont_app, chars_single_ne.
Qed.

(** A word of [str.split()]: not empty, and none of its characters is
    whitespace. *)
Definition is_word (s : string) : Prop :=
  s <> EmptyString /\ forallb (fun ch => negb (is_space_char ch)) (chars s) = true.

Lemma split_chars_cons (ch : string) (cs : list string) :
  split_chars (ch :: cs) =
    if is_space_char ch then split_chars cs
    else match cs with
         | [] => [ch]
         | ch' :: _ =>
             if is_space_char ch' then ch :: split_chars cs
             else match split_chars cs with
                  | t :: ts => (ch +:+ t) :: ts
                  | [] => [ch]
                  end
         end.
Proof. reflexivity. Qed.

Lemma split_chars_head (ch : string) (cs : list string) (t : string) (ts : list string) :
  is_space_char ch = false -> split_chars (ch :: cs) = t :: ts -> exists u, t = ch +:+ u.
Proof.
  intros Hs. rewrite split_chars_cons, Hs. destruct cs as [|ch' cs'].
  - intros [= <- _]. exists EmptyString. by rewrite str_app_nil_r.
  - destruct (is_space_char ch').
    + intros [= <- _]. exists EmptyString. by rewrite str_app_nil_r.
    + destruct (split_chars (ch' :: cs')) as [|t0 ts0].
      * intros [= <- _]. exists EmptyString. by rewrite str_app_nil_r.
      * intros [= <- _]. by exists t0.
Qed.

Lemma word_of_char (ch : string) :
  chars ch = [ch] -> is_space_char ch = false -> is_word ch.
Proof.
  intros Hc Hs. split; [by apply chars_single_ne|]. rewrite Hc. simpl. by rewrite Hs.
Qed.

(** Every piece [str.split()] gives is a word. *)
Lemma split_chars_words (cs : list string) (w : string) :
  chars_ok cs -> In w (split_chars cs) -> is_word w.
Proof.
  revert w. induction cs as [|ch cs IH]; intros w Hok Hin; [done|].
  apply chars_ok_inv in Hok as (Hch & Hok & Hj).
  rewrite split_chars_cons in Hin. destruct (is_space_char ch) eqn:Hs; [by apply IH|].
  destruct cs as [|ch' cs'].
  { destruct Hin as [<-|[]]. by apply word_of_char. }
  destruct (is_space_char ch') eqn:Hs'.
  { destruct Hin as [<-|Hin]; [by apply word_of_char|by apply IH]. }
  destruct (split_chars (ch' :: cs')) as [|t ts] eqn:E.
  { destruct Hin as [<-|[]]. by apply word_of_char. }
  destruct Hin as [<-|Hin]; [|apply IH; [done|by right]].
  destruct (IH t Hok ltac:(by left)) as [Htne Ht].
  destruct (split_chars_head ch' cs' t ts Hs' E) as [u ->].
  apply chars_ok_inv in Hok as (Hch' & _).
  assert (Hjt : joins ch (ch' +:+ u) = false).
  { rewrite <- Hj. apply joins_starts. by apply starts_cont_app, chars_single_ne. }
  split; [by apply chars_single_ne in Hch; destruct ch|].
  rewrite chars_app, Hch by exact Hjt. simpl. by rewrite Hs.
Qed.

Lemma split_ws_words (t s : string) : In s (split_ws t) -> is_word s.
Proof. apply split_chars_words, chars_chars_ok. Qed.

Lemma split_chars_app (xs ys : list string) :
  xs <> [] -> forallb (fun ch => negb (is_space_char ch)) xs = true ->
  match ys with [] => True | y :: _ => is_space_char y = true end ->
  split_chars (xs ++ ys)%list = str_of_chars xs :: split_chars ys.
Proof.
  induction xs as [|x xs IH]; intros Hne Hx Hy; [done|].
  simpl in Hx. apply andb_true_iff in Hx as [Hx0 Hx]. apply negb_true_iff in Hx0.
  rewrite <- app_comm_cons, split_chars_cons, Hx0. destruct xs as [|x2 xs'].
  - rewrite app_nil_l. cbn [str_of_chars]. rewrite str_app_nil_r.
    destruct ys as [|y ys']; [done|]. by rewrite Hy.
  - assert (IH' := IH ltac:(done) Hx Hy). rewrite <- app_comm_cons in IH' |- *.
    simpl in Hx. apply andb_true_iff in Hx as [Hx2 _]. apply negb_true_iff in Hx2.
    rewrite Hx2, IH'. reflexivity.
Qed.

Lemma chars_word_ne (x : string) : is_word x -> chars x <> [].
Proof. intros [Hne _] E. apply Hne. by apply chars_nil. Qed.

(** The characters [str.isspace()] holds for: one character each, and
    the only one with a newline byte is "\n" itself. *)
Lemma space_char_facts (w : string) :
  is_space_char w = true ->
  chars w = [w] /\ starts_cont w = false /\
  (w = String nl EmptyString \/ str_forall (fun c => negb (Ascii.eqb c nl)) w = true).
Proof.
  unfold is_space_char. intros (cp & Hin & Heq)%existsb_exists.
  apply String.eqb_eq in Heq. subst w.
  repeat (destruct Hin as [<-|Hin];
    [split; [reflexivity|split; [reflexivity|]];
     first [left; reflexivity | right; reflexivity]|]).
  destruct Hin.
Qed.

(** A word, then a whitespace character, then the rest: [str.split()]
    gives the word, then the words of the rest. *)
Lemma split_ws_app (x w y : string) :
  is_word x -> is_space_char w = true -> joins w y = false ->
  split_ws (x +:+ (w +:+ y)) = x :: split_ws y.
Proof.
  intros Hx Hw Hwy. destruct (space_char_facts w Hw) as (Hcw & Hsw & _).
  unfold split_ws.
  rewrite chars_app by (apply joins_no_cont; rewrite starts_cont_app; [done|];
                        by apply chars_single_ne).
  rewrite (chars_app w y Hwy), Hcw. simpl.
  rewrite split_chars_app; [|by apply chars_word_ne|apply Hx|exact Hw].
  rewrite str_of_chars_chars, split_chars_cons, Hw. reflexivity.
Qed.

Lemma split_ws_single (s : string) : is_word s -> split_ws s = [s].
Proof.
  intros Hs. unfold split_ws. rewrite <- (app_nil_r (chars s)).
  rewrite split_chars_app; [|by apply chars_word_ne|apply Hs|done].
  by rewrite str_of_chars_chars.
Qed.

Lemma split_ws_two_words (k w : string) :
  is_word k -> is_word w -> split_ws (k +:+ String " " w) = [k; w].
Proof.
  intros Hk Hw. change (String " " w) with (String " " EmptyString +:+ w).
  rewrite split_ws_app by (done || reflexivity). by rewrite split_ws_single.
Qed.

Lemma ascii_not_cont (c : ascii) : is_ascii c = true -> is_cont c = false.
Proof.
  unfold is_ascii, is_cont. intros H. apply Nat.ltb_lt in H.
  apply andb_false_iff. left. apply Nat.leb_gt. lia.
Qed.

(** An ASCII byte is a character of its own. *)
Lemma chars_ascii_byte (c0 : ascii) (s : string) :
  is_ascii c0 = true ->
  str_forall (fun c => negb (Ascii.eqb c c0)) s = false -> In (String c0 EmptyString) (chars s).
Proof.
  intros Ha. induction s as [|c s IH]; [done|]. intros H. cbn [str_forall] in H.
  destruct (Ascii.eqb_spec c c0) as [->|Hc].
  - rewrite chars_cons_ascii by done. by left.
  - specialize (IH H). rewrite chars_cons.
    destruct (negb (is_ascii c) && starts_cont s) eqn:Hj.
    + destruct s as [|d s']; [done|].
      destruct (chars_head d s') as (t & ts & E). rewrite E in IH |- *.
      destruct IH as [Ed|Hin]; [|by right].
      injection Ed as -> _. simpl in Hj. by rewrite ascii_not_cont, andb_false_r in Hj.
    + by right.
Qed.

(** A word has no byte of an ASCII whitespace character (no space, no
    newline). *)
Lemma word_no_ascii_space (c0 : ascii) (x : string) :
  is_ascii c0 = true -> is_space_char (String c0 EmptyString) = true -> is_word x ->
  str_forall (fun c => negb (Ascii.eqb c c0)) x = true.
Proof.
  intros Ha Hs [_ Hx]. destruct (str_forall _ x) eqn:E; [done|].
  apply (chars_ascii_byte c0) in E; [|done].
  rewrite forallb_forall in Hx. specialize (Hx _ E). rewrite Hs in Hx. discriminate Hx.
Qed.

(** An ASCII text of no whitespace character is a word. *)
Lemma ascii_word (s : string) :
  s <> EmptyString ->
  str_forall (fun c => is_ascii c && negb (is_space_char (String c EmptyString))) s = true ->
  is_word s.
Proof.
  intros Hne Hs. split; [done|]. clear Hne. induction s as [|c s IH]; [done|].
  simpl in Hs. apply andb_true_iff in Hs as [Hc Hs]. apply andb_true_iff in Hc as [Ha Hc].
  rewrite chars_cons_ascii by done. simpl. by rewrite Hc, IH.
Qed.

Lemma rstrip_chars_last (cs : list string) (ch : string) :
  is_space_char ch = false -> rstrip_chars (cs ++ [ch])%list = (cs ++ [ch])%list.
Proof.
  intros Hch. induction cs as [|c cs IH]; simpl; [by rewrite Hch|].
  rewrite IH. destruct (cs ++ [ch])%list eqn:E; [|done].
  by destruct cs.
Qed.

(** [str.strip()] keeps a text that starts and ends with characters
    that are not whitespace. *)
Lemma strip_keep (s ch0 chl : string) (mid : list string) :
  chars s = ch0 :: (mid ++ [chl])%list -> is_space_char ch0 = false -> is_space_char chl = false ->
  strip s = s.
Proof.
  intros E H0 Hl. unfold strip. rewrite E. simpl. rewrite H0.
  rewrite app_comm_cons, rstrip_chars_last, <- app_comm_cons, <- E by done.
  apply str_of_chars_chars.
Qed.

(* ------------------------------------------------------------------ *)
(** ** The handlers of tg.py *)

Definition nlS : string := String nl EmptyString.
(** The Cyrillic letters of two reply texts, as UTF-8 bytes. *)
Definition cyr_U : string := String (ascii_of_nat 208) (String (ascii_of_nat 163) EmptyString).
Definition cyr_v : string := String (ascii_of_nat 208) (String (ascii_of_nat 178) EmptyString).

(** [text[1:]]: the text without its first character. *)
Definition drop1 (s : string) : string := str_of_chars (tl (chars s)).

Section Handlers.

Variable cfg : Config.

(** The matrix actions of [action_mapper]; their results come from the
    matrix module. *)
Variables calc_det calc_ref calc_inv : Message -> string -> Matrix -> M (option string).
(** The number-theory collaborators of [rings]; [find_inverse] gives
    [None] where it raises [ArithmeticError]. *)
Variable find_idempotents : Z -> list (Z * Z).
Variable find_nilpotents : Z -> list Z.
Variable find_inverse : Z -> Z -> option Z.

(** [user_id in Config.ADMINS]. *)
Definition is_admin (user_id : Z) : bool := existsb (Z.eqb user_id) (ADMINS cfg).

(** [det], [ref_input], [inv_input]. *)
Definition det (message : Message) : M unit :=
  send_message (m_chat_id message) "Enter the matrix: (in one message)" MK_hide_menu ;;
  register (m_chat_id message) (K_matrix_input "det").

Definition ref_input (message : Message) : M unit :=
  send_message (m_chat_id message) "Enter the matrix: (in one message)" MK_hide_menu ;;
  register (m_chat_id message) (K_matrix_input "ref").

Definition inv_input (message : Message) : M unit :=
  send_message (m_chat_id message) "Enter the matrix: (in one message)" MK_hide_menu ;;
  register (m_chat_id message) (K_matrix_input "m_inverse").

Definition action_mapper (action : string)
    : option (Message -> string -> Matrix -> M (option string)) :=
  if String.eqb action "det" then Some calc_det
  else if String.eqb action "ref" then Some calc_ref
  else if String.eqb action "m_inverse" then Some calc_inv
  else None.

(** [matrix_input]: every entry goes through [float] while the list is
    built, then [Matrix.from_list] checks the row sizes. *)
Definition matrix_input (message : Message) (action : string) : M unit :=
  let lst := map split_ws (split_sep nl (m_text message)) in
  if negb (forallb (forallb py_float_valid) lst) then
    reply_to message "Please enter a <b>numeric</b> square matrix." MK_menu
  else
    match Matrix_from_list lst with
    | None =>
        reply_to message
          "Mismatch in row or column sizes. The matrix must be <b>rectangular</b>."
          MK_menu
    | Some matrix =>
        if Z.ltb (MAX_MATRIX cfg) (mat_n matrix) then
          reply_to message
            ("The matrix input has a limitation of " +:+ py_str_Z (MAX_MATRIX cfg) +:+
             "x" +:+ py_str_Z (MAX_MATRIX cfg) +:+ "!") MK_menu
        else
          next_handler <- lift KeyError (action_mapper action) ;;
          _ <- next_handler message action matrix ;;
          ret tt
    end.

(** [ring_input] for /idempotents and /nilpotents. *)
Definition ring_input (message : Message) : M unit :=
  send_message (m_chat_id message) "Enter the ring modulus:" MK_none ;;
  register (m_chat_id message) (K_ring_output (drop1 (m_text message))).

(** [ring_output]. *)
Definition ring_output (message : Message) (command : string) : M (option string) :=
  let chat := m_chat_id message in
  match py_int (strip (m_text message)) with
  | None => send_message chat "Input data error" MK_menu ;; ret None
  | Some n =>
      if Z.leb (MAX_MODULO cfg) n || Z.ltb n 2 then
        lim <- lift OverflowError (fmt_E (MAX_MODULO cfg)) ;;
        send_message chat ("Limitation: 2 <= n < " +:+ lim) MK_menu ;; ret None
      else
        let res :=
          if String.eqb command "idempotents" then
            Some (map (fun '(row, el) => py_str_Z row +:+ " -> " +:+ py_str_Z el)
                      (find_idempotents n), "Idempotents")
          else if String.eqb command "nilpotents" then
            Some (map py_str_Z (find_nilpotents n), "Nilpotents")
          else None in
        match res with
        | None => ret None
        | Some (result, title) =>
            let s := if Z.ltb (MAX_ELEMENTS cfg) (Z.of_nat (length result))
                     then "There are too many elements to display..."
                     else String.concat nlS result in
            let answer := "<b> " +:+ title +:+ " " +:+ cyr_v +:+ " Z/" +:+ py_str_Z n +:+
                          "</b>" +:+ nlS +:+ "Quantity: " +:+
                          py_str_Z (Z.of_nat (length result)) +:+ nlS +:+ nlS +:+
                          s +:+ nlS in
            send_message chat answer MK_menu ;; ret (Some answer)
        end
  end.

(** [inverse_input_ring]. *)
Definition inverse_input_ring (message : Message) : M unit :=
  send_message (m_chat_id message) "Enter the ring modulus:" MK_none ;;
  register (m_chat_id message) K_inverse_input_element.

(** [inverse_input_element]. *)
Definition inverse_input_element (message : Message) : M unit :=
  let chat := m_chat_id message in
  match py_int (strip (m_text message)) with
  | None => send_message chat "Input data error" MK_menu
  | Some n =>
      if Z.leb (MAX_MODULO cfg) n || Z.ltb n 2 then
        lim <- lift OverflowError (fmt_E (MAX_MODULO cfg)) ;;
        send_message chat ("Limitation: 2 <= n < " +:+ lim) MK_menu
      else
        send_message chat "Enter the element for which you want to find the inverse:" MK_none ;;
        register chat (K_inverse_output n)
  end.

(** [inverse_output]: Python's [n % modulo] is the floor modulo. *)
Definition inverse_output (message : Message) (modulo : Z) : M (option string) :=
  let chat := m_chat_id message in
  match py_int (strip (m_text message)) with
  | None => send_message chat "Input data error" MK_menu ;; ret None
  | Some n0 =>
      if Z.eqb modulo 0 then raise ZeroDivisionError else
      let n := Z.modulo n0 modulo in
      match find_inverse n modulo with
      | None =>
          let answer := cyr_U +:+ " " +:+ py_str_Z n +:+
                        " <b>There is no inverse in the ring Z./" +:+ py_str_Z modulo +:+
                        nlS +:+ "As the GCD (Greatest Common Divisor)(" +:+ py_str_Z n +:+
                        ", " +:+ py_str_Z modulo +:+ ") > 1" in
          send_message chat answer MK_none ;; ret (Some answer)
      | Some result =>
          let answer := py_str_Z result in
          send_message chat answer MK_none ;; ret (Some answer)
      end
  end.

(** [broadcast_input]. *)
Definition broadcast_input (message : Message) : M unit :=
  if negb (is_admin (m_from_id message)) then ret tt
  else send_message (m_chat_id message) "Message for mailing:" MK_none ;;
       register (m_chat_id message) K_broadcast.

End Handlers.

(** ** The report workflow *)

(** [report_handling]: [User.get_or_create] touches only the user
    table, which the report claims do not need. *)
Definition report_handling (message : Message) : M unit :=
  db <- get_db ;;
  put_db (Store.new_report db (m_from_id message) (m_text message)) ;;
  send_message (m_chat_id message) "Thank you for reporting the issues to me!" MK_none.

(** [change_report_status]: the id is the third word of the report
    message ("Report id: <id> ..."). *)
Definition change_report_status (call : Call) : M unit :=
  let chat := m_chat_id (c_message call) in
  let data := c_data call in
  id <- lift IndexError (py_index (split_ws (m_text (c_message call))) 2) ;;
  (if String.eqb data "accept_report" then
     send_message chat "Provide a link to the GitHub issue, please." MK_none ;;
     register chat (K_link_handling (LId_str id))
   else ret tt) ;;
  (if String.eqb data "close_report" then
     db <- get_db ;;
     r <- lift AttributeError (Store.get_report_by_id db (Store.db_key id)) ;;
     if status_eqb (rr_status r) ACCEPTED then
       put_db (Store.change_status db (Store.db_key id) data None) ;;
       send_message chat "The issue has been closed." MK_none
     else send_message chat "The issue has not been confirmed yet!" MK_none
   else ret tt) ;;
  (if String.eqb data "reject_report" then
     db <- get_db ;;
     put_db (Store.change_status db (Store.db_key id) data None) ;;
     send_message chat "The issue has been rejected." MK_none
   else ret tt).

Definition link_prompt_header : string := "<b>Is the link provided correct?</b>".

(** [link_handling]. *)
Definition link_handling (message : Message) (id : LinkId) : M unit :=
  send_message (m_chat_id message)
    (link_prompt_header +:+ nlS +:+ "<b>Link:</b> " +:+ m_text message)
    (MK_inline [("Confirm", "accept_link " +:+ fmt_link_id id);
                ("Reject", "reject_link " +:+ fmt_link_id id)]).

(** [accept_link]: the link is cut from the confirmation message the
    button belongs to. *)
Definition accept_link (call : Call) : M unit :=
  let chat := m_chat_id (c_message call) in
  let words := split_ws (c_data call) in
  id_s <- lift IndexError (py_index words 1) ;;
  id <- lift ValueError (py_int id_s) ;;
  kind <- lift IndexError (py_index words 0) ;;
  if String.eqb kind "accept_link" then
    line <- lift IndexError (py_index (split_sep nl (m_text (c_message call))) 1) ;;
    link <- lift IndexError (py_index (split_ws line) 1) ;;
    db <- get_db ;;
    put_db (Store.change_status db (Some id) "accept_report" (Some link)) ;;
    send_message chat "The issue has been confirmed." MK_none
  else
    send_message chat "Please provide the link again." MK_none ;;
    register chat (K_link_handling (LId_int id)).

(** The handlers that read or write the report table, as events of the
    update loop.  Any of them may run with any input: this covers every
    order in which callbacks and registered steps can reach them.  No
    other handler of tg.py writes the table. *)
Inductive Event :=
| Ev_report_handling (m : Message)
| Ev_change_report_status (c : Call)
| Ev_link_handling (m : Message) (id : LinkId)
| Ev_accept_link (c : Call).

Definition handle (ev : Event) : M unit :=
  match ev with
  | Ev_report_handling m => report_handling m
  | Ev_change_report_status c => change_report_status c
  | Ev_link_handling m id => link_handling m id
  | Ev_accept_link c => accept_link c
  end.

Definition step (db : DB) (ev : Event) : DB := w_db (snd (run (handle ev) db)).

(** Report tables reachable from the empty one. *)
Inductive reachable : DB -> Prop :=
| reach_empty : reachable ∅
| reach_step db ev : reachable db -> reachable (step db ev).

(** The kinds of event that request a transition. *)
Definition confirms_link (ev : Event) : Prop :=
  match ev with
  | Ev_accept_link c => py_index (split_ws (c_data c)) 0 = Some "accept_link"
  | _ => False
  end.

Definition is_status_action (a : string) (ev : Event) : Prop :=
  match ev with
  | Ev_change_report_status c => c_data c = a
  | _ => False
  end.

(* ------------------------------------------------------------------ *)
(** ** Facts about the store and the handlers *)

Ltac unfold_m :=
  unfold bind, ret, lift, raise, emit, get_db, put_db, send_message,
    reply_to, register in *.

Lemma foldr_max_ge (l : list Z) (x : Z) : In x l -> x <= foldr Z.max 0 l.
Proof.
  induction l as [|y l IH]; simpl; [done|].
  intros [->|H]; [lia|]. specialize (IH H). lia.
Qed.

Lemma next_id_fresh (db : DB) (i : Z) (r : ReportRecord) :
  db !! i = Some r -> i <> Store.next_id db.
Proof.
  intros Hi. unfold Store.next_id.
  assert (In i (map fst (map_to_list db))) as Hin.
  { apply in_map_iff. exists (i, r). split; [done|].
    apply list_elem_of_In. by apply elem_of_map_to_list. }
  apply foldr_max_ge in Hin. lia.
Qed.

Lemma lookup_new_report (db : DB) u t i r :
  db !! i = Some r -> Store.new_report db u t !! i = Some r.
Proof.
  intros Hi. unfold Store.new_report.
  rewrite lookup_insert_ne; [done|].
  intros Heq. by apply (next_id_fresh db i r); [|symmetry].
Qed.

Lemma lookup_change_status (db : DB) k a l i :
  Store.change_status db k a l !! i = db !! i \/
  exists r, db !! i = Some r /\
            Store.change_status db k a l !! i = Some (Store.transition a l r).
Proof.
  unfold Store.change_status.
  destruct k as [j|]; [|by left].
  destruct (db !! j) as [r|] eqn:Hj; [|by left].
  destruct (decide (i = j)) as [->|Hne].
  - right. exists r. by rewrite lookup_insert_eq.
  - left. by rewrite lookup_insert_ne.
Qed.

(** What a transition does to one record. *)
Lemma transition_cases a l r :
  Store.transition a l r = r \/
  (a = "accept_report" /\ rr_status r = NEW /\
   Store.transition a l r = mkReport (rr_user_id r) (rr_text r) ACCEPTED l) \/
  (a = "reject_report" /\ rr_status r = NEW /\
   Store.transition a l r = mkReport (rr_user_id r) (rr_text r) REJECTED (rr_link r)) \/
  (a = "close_report" /\ rr_status r = ACCEPTED /\
   Store.transition a l r = mkReport (rr_user_id r) (rr_text r) CLOSED (rr_link r)).
Proof.
  unfold Store.transition. destruct (rr_status r) eqn:Hs; try by left.
  - destruct (String.eqb_spec a "accept_report") as [->|Ha]; [right; left; done|].
    destruct (String.eqb_spec a "reject_report") as [->|Hb]; [right; right; left; done|].
    by left.
  - destruct (String.eqb_spec a "close_report") as [->|Ha]; [right; right; right; done|].
    by left.
Qed.

(** Every event leaves the table as it is, adds one report, or applies
    [change_status] with the action of its kind. *)
Lemma step_cases (db : DB) (ev : Event) :
  step db ev = db \/
  (exists u t, step db ev = Store.new_report db u t) \/
  (exists k l, confirms_link ev /\
     step db ev = Store.change_status db k "accept_report" (Some l)) \/
  (exists k, is_status_action "reject_report" ev /\
     step db ev = Store.change_status db k "reject_report" None) \/
  (exists k, is_status_action "close_report" ev /\
     step db ev = Store.change_status db k "close_report" None).
Proof.
  unfold step, run, handle. destruct ev as [m|c|m id|c]; simpl.
  - right; left. by eexists _, _.
  - unfold change_report_status. unfold_m.
    destruct (py_index (split_ws (m_text (c_message c))) 2) as [id|]; simpl; [|by left].
    destruct (String.eqb_spec (c_data c) "accept_report") as [Ha|Ha].
    { rewrite Ha. simpl. by left. }
    destruct (String.eqb_spec (c_data c) "close_report") as [Hc|Hc].
    + rewrite Hc. simpl.
      destruct (Store.get_report_by_id db (Store.db_key id)) as [r|]; simpl; [|by left].
      destruct (status_eqb (rr_status r) ACCEPTED); simpl; [|by left].
      do 4 right. exists (Store.db_key id). done.
    + destruct (String.eqb_spec (c_data c) "reject_report") as [Hr|Hr]; simpl.
      * do 3 right; left. exists (Store.db_key id). rewrite Hr; done.
      * by left.
  - by left.
  - unfold accept_link. unfold_m.
    destruct (py_index (split_ws (c_data c)) 1) as [s|]; simpl; [|by left].
    destruct (py_int s) as [j|]; simpl; [|by left].
    destruct (py_index (split_ws (c_data c)) 0) as [kd|] eqn:Hk; simpl; [|by left].
    destruct (String.eqb_spec kd "accept_link") as [->|Hne]; simpl; [|by left].
    destruct (py_index (split_sep nl (m_text (c_message c))) 1) as [ln|]; simpl; [|by left].
    destruct (py_index (split_ws ln) 1) as [lk|]; simpl; [|by left].
    do 2 right; left. by exists (Some j), lk.
Qed.

(** [link] is set exactly in the statuses after acceptance. *)
Definition link_ok (r : ReportRecord) : Prop :=
  is_Some (rr_link r) <-> rr_status r = ACCEPTED \/ rr_status r = CLOSED.

Lemma transition_link_ok a l r :
  link_ok r -> (a = "accept_report" -> is_Some l) -> link_ok (Store.transition a l r).
Proof.
  intros Hr Hl.
  destruct (transition_cases a l r) as [->|[[-> [_ ->]]|[[-> [Hs ->]]|[-> [Hs ->]]]]];
    unfold link_ok in *; simpl; [done| |rewrite Hs in Hr..].
  - specialize (Hl eq_refl). naive_solver.
  - destruct Hr as [H1 H2]. split; [intros H; destruct (H1 H); discriminate|].
    intros [H|H]; discriminate.
  - destruct Hr as [H1 H2]. split; [auto|]. intros _. by apply H2; left.
Qed.

(* ------------------------------------------------------------------ *)
(** ** The report lifecycle *)

(** C1: a report's status moves only NEW -> ACCEPTED (on a confirmed
    link, which sets the link), NEW -> REJECTED (reject_report) and
    ACCEPTED -> CLOSED (close_report); in every other case, whatever
    event runs, status and link stay as they were.  The owner and the
    text never change. *)
Theorem report_status_transitions (db : DB) (ev : Event) (i : Z) (r : ReportRecord) :
  db !! i = Some r ->
  exists r', step db ev !! i = Some r' /\
    rr_user_id r' = rr_user_id r /\ rr_text r' = rr_text r /\
    ((rr_status r' = rr_status r /\ rr_link r' = rr_link r) \/
     (rr_status r = NEW /\ rr_status r' = ACCEPTED /\ is_Some (rr_link r') /\
      confirms_link ev) \/
     (rr_status r = NEW /\ rr_status r' = REJECTED /\ rr_link r' = rr_link r /\
      is_status_action "reject_report" ev) \/
     (rr_status r = ACCEPTED /\ rr_status r' = CLOSED /\ rr_link r' = rr_link r /\
      is_status_action "close_report" ev)).
Proof.
  intros Hi.
  destruct (step_cases db ev)
    as [Hs|[[u [t Hs]]|[[k [l [Hev Hs]]]|[[k [Hev Hs]]|[k [Hev Hs]]]]]];
    rewrite Hs.
  - exists r. rewrite Hi. naive_solver.
  - exists r. rewrite (lookup_new_report _ _ _ _ _ Hi). naive_solver.
  - destruct (lookup_change_status db k "accept_report" (Some l) i) as [->|[r0 [H0 ->]]].
    { exists r. rewrite Hi. naive_solver. }
    rewrite Hi in H0. injection H0 as <-.
    destruct (transition_cases "accept_report" (Some l) r)
      as [->|[[_ [Hn ->]]|[[Ha _]|[Ha _]]]]; try discriminate.
    + exists r. naive_solver.
    + eexists. split; [done|]. simpl. do 2 (split; [done|]). right; left.
      split; [done|]. split; [done|]. split; [by eexists|done].
  - destruct (lookup_change_status db k "reject_report" None i) as [->|[r0 [H0 ->]]].
    { exists r. rewrite Hi. naive_solver. }
    rewrite Hi in H0. injection H0 as <-.
    destruct (transition_cases "reject_report" None r)
      as [->|[[Ha _]|[[_ [Hn ->]]|[Ha _]]]]; try discriminate.
    + exists r. naive_solver.
    + eexists. split; [done|]. simpl. do 2 (split; [done|]). do 2 right; left. done.
  - destruct (lookup_change_status db k "close_report" None i) as [->|[r0 [H0 ->]]].
    { exists r. rewrite Hi. naive_solver. }
    rewrite Hi in H0. injection H0 as <-.
    destruct (transition_cases "close_report" None r)
      as [->|[[Ha _]|[[Ha _]|[_ [Hn ->]]]]]; try discriminate.
    + exists r. naive_solver.
    + eexists. split; [done|]. simpl. do 2 (split; [done|]). do 3 right. done.
Qed.

(** C2: in every reachable report table, a report has a link exactly
    when its status is ACCEPTED or CLOSED. *)
Theorem reachable_link_iff_accepted_or_closed (db : DB) (i : Z) (r : ReportRecord) :
  reachable db -> db !! i = Some r ->
  (is_Some (rr_link r) <-> rr_status r = ACCEPTED \/ rr_status r = CLOSED).
Proof.
  intros Hreach. revert i r.
  induction Hreach as [|db ev Hreach IH]; intros i r Hi.
  - by rewrite lookup_empty in Hi.
  - change (link_ok r).
    destruct (step_cases db ev)
      as [Hs|[[u [t Hs]]|[[k [l [Hev Hs]]]|[[k [Hev Hs]]|[k [Hev Hs]]]]]];
      rewrite Hs in Hi.
    + by apply (IH i).
    + unfold Store.new_report in Hi.
      destruct (decide (i = Store.next_id db)) as [->|Hne].
      * rewrite lookup_insert_eq in Hi. injection Hi as <-.
        unfold link_ok; simpl. split; [by intros [? ?]|intros [?|?]; discriminate].
      * rewrite lookup_insert_ne in Hi; [|done]. by apply (IH i).
    + destruct (lookup_change_status db k "accept_report" (Some l) i) as [Hl|[r0 [H0 Hl]]];
        rewrite Hl in Hi; [by apply (IH i)|].
      injection Hi as <-. apply transition_link_ok; [by apply (IH i)|by eexists].
    + destruct (lookup_change_status db k "reject_report" None i) as [Hl|[r0 [H0 Hl]]];
        rewrite Hl in Hi; [by apply (IH i)|].
      injection Hi as <-. apply transition_link_ok; [by apply (IH i)|discriminate].
    + destruct (lookup_change_status db k "close_report" None i) as [Hl|[r0 [H0 Hl]]];
        rewrite Hl in Hi; [by apply (IH i)|].
      injection Hi as <-. apply transition_link_ok; [by apply (IH i)|discriminate].
Qed.

(** The two-step accept sub-flow: asking for a link, echoing it, and
    turning the echoed link down. *)
Definition subflow_pending (ev : Event) : Prop :=
  match ev with
  | Ev_change_report_status c => c_data c = "accept_report"
  | Ev_link_handling _ _ => True
  | Ev_accept_link c => py_index (split_ws (c_data c)) 0 = Some "reject_link"
  | Ev_report_handling _ => False
  end.

(** A confirmation applies [change_status] with the link cut from the
    second line of the confirmation message. *)
Lemma accept_link_confirm_run (db : DB) (c : Call) (s : string) (j : Z) (line link : string) :
  py_index (split_ws (c_data c)) 0 = Some "accept_link" ->
  py_index (split_ws (c_data c)) 1 = Some s -> py_int s = Some j ->
  py_index (split_sep nl (m_text (c_message c))) 1 = Some line ->
  py_index (split_ws line) 1 = Some link ->
  run (accept_link c) db =
    (Ok tt, mkWorld (Store.change_status db (Some j) "accept_report" (Some link))
       [SendMessage (m_chat_id (c_message c)) "The issue has been confirmed." MK_none]).
Proof.
  intros H0 H1 Hj Hl Hk. unfold run, accept_link. unfold_m.
  rewrite H1. simpl. rewrite Hj. simpl. rewrite H0. simpl.
  rewrite Hl. simpl. by rewrite Hk.
Qed.

(** C3: the steps of the accept sub-flow before confirmation never
    write the report table, however often the link is turned down and
    asked for again; turning it down registers the link prompt again;
    only the confirmation applies [change_status] with accept_report
    and the echoed link. *)
Theorem accept_subflow_commits_only_on_confirm (db : DB) :
  (forall evs : list Event, Forall subflow_pending evs -> foldl step db evs = db) /\
  (forall (c : Call) (s : string) (j : Z),
     py_index (split_ws (c_data c)) 0 = Some "reject_link" ->
     py_index (split_ws (c_data c)) 1 = Some s -> py_int s = Some j ->
     run (accept_link c) db =
       (Ok tt, mkWorld db
          [SendMessage (m_chat_id (c_message c)) "Please provide the link again." MK_none;
           RegisterNextStep (m_chat_id (c_message c)) (K_link_handling (LId_int j))])) /\
  (forall (c : Call) (s : string) (j : Z) (line link : string),
     py_index (split_ws (c_data c)) 0 = Some "accept_link" ->
     py_index (split_ws (c_data c)) 1 = Some s -> py_int s = Some j ->
     py_index (split_sep nl (m_text (c_message c))) 1 = Some line ->
     py_index (split_ws line) 1 = Some link ->
     run (accept_link c) db =
       (Ok tt, mkWorld (Store.change_status db (Some j) "accept_report" (Some link))
          [SendMessage (m_chat_id (c_message c)) "The issue has been confirmed." MK_none])).
Proof.
  split; [|split].
  - intros evs Hall. revert db. induction Hall as [|ev evs Hev Hall IH]; intros db; [done|].
    simpl. rewrite <- (IH db) at 2. f_equal.
    unfold step, run, handle. destruct ev as [m|c|m id|c]; simpl in Hev; [done|..].
    + unfold change_report_status. unfold_m. rewrite Hev. simpl.
      by destruct (py_index (split_ws (m_text (c_message c))) 2).
    + done.
    + unfold accept_link. unfold_m.
      destruct (py_index (split_ws (c_data c)) 1) as [s|]; simpl; [|done].
      destruct (py_int s); simpl; [|done]. by rewrite Hev.
  - intros c s j H0 H1 Hj. unfold run, accept_link. unfold_m.
    rewrite H1. simpl. rewrite Hj. simpl. by rewrite H0.
  - intros c s j line link. apply accept_link_confirm_run.
Qed.

(** C4: close_report on a report closes it when its status is
    ACCEPTED and otherwise changes nothing and tells the admin the issue
    is not confirmed yet. *)
Theorem close_report_only_from_accepted (db : DB) (c : Call) (id : string) (k : Z)
    (r : ReportRecord) :
  c_data c = "close_report" ->
  py_index (split_ws (m_text (c_message c))) 2 = Some id ->
  Store.db_key id = Some k -> db !! k = Some r ->
  run (change_report_status c) db =
    if status_eqb (rr_status r) ACCEPTED
    then (Ok tt, mkWorld (<[k := mkReport (rr_user_id r) (rr_text r) CLOSED (rr_link r)]> db)
            [SendMessage (m_chat_id (c_message c)) "The issue has been closed." MK_none])
    else (Ok tt, mkWorld db
            [SendMessage (m_chat_id (c_message c)) "The issue has not been confirmed yet!" MK_none]).
Proof.
  intros Hd Hid Hk Hr. unfold Store.db_key in Hk.
  unfold run, change_report_status, Store.db_key. unfold_m.
  rewrite Hid. simpl. rewrite Hd. simpl.
  unfold Store.get_report_by_id. rewrite Hk, Hr. simpl.
  destruct (rr_status r) eqn:Hs; simpl; try done.
  rewrite Hr.
  unfold Store.transition. by rewrite Hs.
Qed.

(* ------------------------------------------------------------------ *)
(** ** Concrete inputs *)

Definition ex_cfg : Config := mkConfig [20] 4 1000000 1000.
Definition ex_report : ReportRecord := mkReport 10 "button broken" NEW None.
Definition ex_db : DB := {[1 := ex_report]}.
(** The report as [list_reports] shows it, in a group chat. *)
Definition ex_report_msg : Message :=
  mkMessage (-100) 5 20 ("Report id: 1" +:+ nlS +:+ "User id: 10").
Definition ex_confirm_msg : Message :=
  mkMessage 20 7 20 ("Is the link provided correct?" +:+ nlS +:+ "Link: http://x/1").
Definition ex_confirm_call : Call := mkCall 20 "accept_link 1" ex_confirm_msg.
Definition no_matrix_action : Message -> string -> Matrix -> M (option string) :=
  fun _ _ _ => ret None.

(** C6: the review handler never looks at the caller.  A
    group member who is not an admin presses "Reject error" under a
    report: the report is rejected and the bot answers, whereas
    [broadcast_input] drops the same caller silently. *)
Theorem nonadmin_reject_report_is_applied :
  is_admin ex_cfg 30 = false /\
  run (change_report_status (mkCall 30 "reject_report" ex_report_msg)) ex_db =
    (Ok tt, mkWorld {[1 := mkReport 10 "button broken" REJECTED None]}
              [SendMessage (-100) "The issue has been rejected." MK_none]) /\
  run (broadcast_input ex_cfg (mkMessage (-100) 6 30 "/broadcast")) ex_db =
    (Ok tt, mkWorld ex_db []).
Proof. split; [reflexivity|split]; vm_compute; reflexivity. Qed.

(* ------------------------------------------------------------------ *)
(** ** Input validation of the dialogues *)

(** C7: a modulus that [int] rejects gets "Input data error", one
    outside [2 <= n < MAX_MODULO] gets the limitation message, which
    shows [MAX_MODULO] as [format(MAX_MODULO, "E")] formats it; either
    way nothing is computed and no further step is registered, in both
    /idempotents-/nilpotents and /inverse.  (The formatting converts
    [MAX_MODULO] to a float: a configured value of [2^1024] or more
    would raise [OverflowError] instead.) *)
Theorem modulus_input_rejections (cfg : Config) (fi : Z -> list (Z * Z))
    (fn : Z -> list Z) (message : Message) (command : string) (db : DB) :
  (py_int (strip (m_text message)) = None ->
   run (ring_output cfg fi fn message command) db =
     (Ok None, mkWorld db [SendMessage (m_chat_id message) "Input data error" MK_menu]) /\
   run (inverse_input_element cfg message) db =
     (Ok tt, mkWorld db [SendMessage (m_chat_id message) "Input data error" MK_menu])) /\
  (forall (n : Z) (lim : string), py_int (strip (m_text message)) = Some n ->
   n < 2 \/ MAX_MODULO cfg <= n -> fmt_E (MAX_MODULO cfg) = Some lim ->
   run (ring_output cfg fi fn message command) db =
     (Ok None, mkWorld db [SendMessage (m_chat_id message)
                             ("Limitation: 2 <= n < " +:+ lim) MK_menu]) /\
   run (inverse_input_element cfg message) db =
     (Ok tt, mkWorld db [SendMessage (m_chat_id message)
                           ("Limitation: 2 <= n < " +:+ lim) MK_menu])).
Proof.
  split.
  - intros H. unfold run, ring_output, inverse_input_element. unfold_m.
    by rewrite H.
  - intros n lim H Hr Hlim.
    assert (Hb : (Z.leb (MAX_MODULO cfg) n || Z.ltb n 2)%bool = true).
    { apply orb_true_iff. destruct Hr; [right; lia|left; lia]. }
    unfold run, ring_output, inverse_input_element. unfold_m.
    rewrite H, Hb, Hlim. done.
Qed.

(** Rows of different lengths. *)
Definition rows_unequal (lst : list (list string)) : Prop :=
  exists r1 r2, In r1 lst /\ In r2 lst /\ length r1 <> length r2.

Lemma from_list_unequal (lst : list (list string)) :
  rows_unequal lst -> Matrix_from_list lst = None.
Proof.
  intros (r1 & r2 & H1 & H2 & Hne). destruct lst as [|r rs]; [done|].
  simpl. destruct (forallb _ rs) eqn:Hall; [|done]. exfalso.
  rewrite forallb_forall in Hall.
  assert (Hlen : forall x, In x (r :: rs) -> length x = length r).
  { intros x [<-|Hx]; [done|]. apply Nat.eqb_eq. by apply Hall. }
  apply Hne. by rewrite (Hlen r1 H1), (Hlen r2 H2).
Qed.

(** C8, as the code has it: the numeric check runs while the rows are
    read, so a non-numeric entry is reported first, even when the rows
    also differ in length. *)
Theorem matrix_unequal_rows_numeric_reply :
  let m := mkMessage 20 8 20 ("1 2" +:+ nlS +:+ "x") in
  rows_unequal (map split_ws (split_sep nl (m_text m))) /\
  run (matrix_input ex_cfg no_matrix_action no_matrix_action no_matrix_action m "det") ex_db =
    (Ok tt, mkWorld ex_db
       [ReplyTo 20 8 "Please enter a <b>numeric</b> square matrix." MK_menu]).
Proof.
  simpl. split.
  - exists ["1"; "2"], ["x"]. simpl. repeat split; auto.
  - vm_compute. reflexivity.
Qed.

(** C8, amended: numeric check first, then row sizes, then the size
    limit, and only then the action; no rejection registers a step. *)
Theorem matrix_input_rejections (cfg : Config)
    (cd cr ci : Message -> string -> Matrix -> M (option string))
    (message : Message) (action : string) (db : DB) :
  let lst := map split_ws (split_sep nl (m_text message)) in
  (forallb (forallb py_float_valid) lst = false ->
   run (matrix_input cfg cd cr ci message action) db =
     (Ok tt, mkWorld db [ReplyTo (m_chat_id message) (m_message_id message)
                           "Please enter a <b>numeric</b> square matrix." MK_menu])) /\
  (forallb (forallb py_float_valid) lst = true -> rows_unequal lst ->
   run (matrix_input cfg cd cr ci message action) db =
     (Ok tt, mkWorld db [ReplyTo (m_chat_id message) (m_message_id message)
        "Mismatch in row or column sizes. The matrix must be <b>rectangular</b>." MK_menu])) /\
  (forall mat : Matrix,
   forallb (forallb py_float_valid) lst = true -> Matrix_from_list lst = Some mat ->
   MAX_MATRIX cfg < mat_n mat ->
   run (matrix_input cfg cd cr ci message action) db =
     (Ok tt, mkWorld db [ReplyTo (m_chat_id message) (m_message_id message)
        ("The matrix input has a limitation of " +:+ py_str_Z (MAX_MATRIX cfg) +:+
         "x" +:+ py_str_Z (MAX_MATRIX cfg) +:+ "!") MK_menu])) /\
  (forall (mat : Matrix) h,
   forallb (forallb py_float_valid) lst = true -> Matrix_from_list lst = Some mat ->
   mat_n mat <= MAX_MATRIX cfg -> action_mapper cd cr ci action = Some h ->
   run (matrix_input cfg cd cr ci message action) db = run (_ <- h message action mat ;; ret tt) db).
Proof.
  intros lst. unfold matrix_input. fold lst.
  split; [|split; [|split]].
  - intros Hf. unfold run. rewrite Hf. done.
  - intros Hf Hu. unfold run. rewrite Hf, (from_list_unequal lst Hu). done.
  - intros mat Hf Hm Hn. unfold run. rewrite Hf, Hm. simpl.
    replace (Z.ltb (MAX_MATRIX cfg) (mat_n mat)) with true by (symmetry; apply Z.ltb_lt; lia).
    done.
  - intros mat h Hf Hm Hn Hh. unfold run. rewrite Hf, Hm. simpl.
    replace (Z.ltb (MAX_MATRIX cfg) (mat_n mat)) with false by (symmetry; apply Z.ltb_ge; lia).
    rewrite Hh. done.
Qed.

(* ------------------------------------------------------------------ *)
(** ** The link kept on confirmation *)

(** The text Telegram gives back for a message sent with
    [parse_mode="html"]: the tags are removed (the texts here carry no
    entities). *)
Fixpoint strip_tags_aux (in_tag : bool) (s : string) : string :=
  match s with
  | EmptyString => EmptyString
  | String c s' =>
      if in_tag then strip_tags_aux (negb (Ascii.eqb c ">")) s'
      else if Ascii.eqb c "<" then strip_tags_aux true s'
      else String c (strip_tags_aux false s')
  end.

Definition html_text (s : string) : string := strip_tags_aux false s.

Definition plain_text (s : string) : bool :=
  str_forall (fun c => negb (Ascii.eqb c "<" || Ascii.eqb c ">" || Ascii.eqb c "&")) s.

Lemma html_text_plain (s : string) : plain_text s = true -> strip_tags_aux false s = s.
Proof.
  induction s as [|c s IH]; simpl; [done|].
  intros H. apply andb_true_iff in H as [Hc Hs].
  destruct (Ascii.eqb c "<"); [done|]. by rewrite IH.
Qed.

Lemma split_sep_head (sep : ascii) (s : string) :
  exists t ts, split_sep sep s = t :: ts.
Proof.
  destruct s as [|c s]; simpl; [by eexists _, _|].
  destruct (Ascii.eqb c sep); [by eexists _, _|].
  destruct (split_sep sep s); by eexists _, _.
Qed.

Lemma split_sep_app (sep : ascii) (x y t : string) (ts : list string) :
  str_forall (fun c => negb (Ascii.eqb c sep)) x = true ->
  split_sep sep y = t :: ts ->
  split_sep sep (x +:+ y) = (x +:+ t) :: ts.
Proof.
  induction x as [|c x IH]; simpl; intros H Hy; [done|].
  apply andb_true_iff in H as [Hc Hx]. rewrite (IH Hx Hy).
  apply negb_true_iff in Hc. by rewrite Hc.
Qed.

Lemma split_sep_first_cont (sep : ascii) (b t : string) (ts : list string) :
  split_sep sep b = t :: ts -> starts_cont b = false -> starts_cont t = false.
Proof.
  destruct b as [|d b']; simpl; [by intros [= <- _]|].
  destruct (Ascii.eqb d sep); [by intros [= <- _]|].
  destruct (split_sep sep b'); by intros [= <- _].
Qed.

(** C9: confirming stores the first whitespace-separated word after
    "Link:" on the second line of the confirmation message, so a link
    text [a ++ w ++ b], with [a] a word and [w] a whitespace character
    (a space, a tab, a newline, a no-break space, ...), is stored as [a]
    alone; [b] is any text that starts at a character boundary, as
    every UTF-8 text does. *)
Theorem confirmed_link_is_first_word (db : DB) (c : Call) (s : string) (j : Z)
    (link_msg : Message) (a w b : string) :
  py_index (split_ws (c_data c)) 0 = Some "accept_link" ->
  py_index (split_ws (c_data c)) 1 = Some s -> py_int s = Some j ->
  m_text link_msg = a +:+ (w +:+ b) ->
  is_word a -> is_space_char w = true -> starts_cont b = false ->
  plain_text (m_text link_msg) = true ->
  m_text (c_message c) =
    html_text (link_prompt_header +:+ nlS +:+ "<b>Link:</b> " +:+ m_text link_msg) ->
  run (accept_link c) db =
    (Ok tt, mkWorld (Store.change_status db (Some j) "accept_report" (Some a))
       [SendMessage (m_chat_id (c_message c)) "The issue has been confirmed." MK_none]).
Proof.
  intros H0 H1 Hj Ht Ha Hw Hb Hplain Hc.
  assert (Hline : py_index (split_sep nl (m_text (c_message c))) 1 =
                  Some ("Link: " +:+ hd EmptyString (split_sep nl (a +:+ (w +:+ b))))).
  { unfold html_text, link_prompt_header, nlS in Hc. cbv [String.append] in Hc.
    simpl in Hc. rewrite html_text_plain, Ht in Hc by done. rewrite Hc. simpl.
    destruct (split_sep_head nl (a +:+ (w +:+ b))) as (t & ts & Hsp).
    rewrite Hsp. reflexivity. }
  assert (Hfirst : exists rest, hd EmptyString (split_sep nl (a +:+ (w +:+ b))) = a +:+ rest /\
            (rest = EmptyString \/ exists t, rest = w +:+ t /\ starts_cont t = false)).
  { destruct (split_sep_head nl (w +:+ b)) as (t & ts & Hwb).
    rewrite (split_sep_app nl a (w +:+ b) t ts (word_no_ascii_space nl a eq_refl eq_refl Ha) Hwb). simpl.
    exists t. split; [done|].
    destruct (space_char_facts w Hw) as (_ & _ & [->|Hwn]).
    - left. simpl in Hwb. by injection Hwb as <- _.
    - right. destruct (split_sep_head nl b) as (t' & ts' & Hb').
      rewrite (split_sep_app nl w b t' ts' Hwn Hb') in Hwb. injection Hwb as <- _.
      exists t'. split; [done|]. exact (split_sep_first_cont nl b t' ts' Hb' Hb). }
  destruct Hfirst as (rest & Hhd & Hrest).
  rewrite Hhd in Hline.
  assert (Hwords : py_index (split_ws ("Link: " +:+ (a +:+ rest))) 1 = Some a).
  { change ("Link: " +:+ (a +:+ rest)) with ("Link:" +:+ (String " " EmptyString +:+ (a +:+ rest))).
    rewrite split_ws_app; [|split; [done|reflexivity]|reflexivity|reflexivity].
    unfold py_index. simpl.
    destruct Hrest as [->|(t & -> & Ht0)].
    - by rewrite str_app_nil_r, split_ws_single.
    - by rewrite split_ws_app by (done || by apply joins_no_cont). }
  exact (accept_link_confirm_run db c s j ("Link: " +:+ (a +:+ rest)) a H0 H1 Hj Hline Hwords).
Qed.

(* ------------------------------------------------------------------ *)
(** ** The inverse in Z/n *)

(** C10: /inverse reduces the element modulo the modulus first, so two
    element inputs congruent modulo a valid modulus get the same
    answer. *)
Theorem inverse_output_depends_on_residue (cfg : Config) (fi : Z -> Z -> option Z)
    (m1 m2 : Message) (modulo e1 e2 : Z) (db : DB) :
  2 <= modulo < MAX_MODULO cfg -> m_chat_id m1 = m_chat_id m2 ->
  py_int (strip (m_text m1)) = Some e1 -> py_int (strip (m_text m2)) = Some e2 ->
  e1 mod modulo = e2 mod modulo ->
  run (inverse_output fi m1 modulo) db = run (inverse_output fi m2 modulo) db.
Proof.
  intros Hm Hchat H1 H2 Hmod. unfold run, inverse_output.
  rewrite H1, H2, Hchat.
  replace (Z.eqb modulo 0) with false by (symmetry; apply Z.eqb_neq; lia).
  by rewrite Hmod.
Qed.

(* ------------------------------------------------------------------ *)
(** ** Witnesses: the theorems at concrete inputs *)

Definition ex_user_msg : Message := mkMessage 10 1 10 "button broken".

Lemma report_status_transitions_witness :
  ex_db !! 1 = Some ex_report /\
  exists r', step ex_db (Ev_accept_link ex_confirm_call) !! 1 = Some r'.
Proof.
  assert (H : ex_db !! 1 = Some ex_report) by reflexivity.
  split; [exact H|].
  destruct (report_status_transitions ex_db (Ev_accept_link ex_confirm_call) 1 ex_report H)
    as [r' [Hr' _]].
  exists r'. exact Hr'.
Defined.

Lemma reachable_link_iff_accepted_or_closed_witness :
  reachable (step ∅ (Ev_report_handling ex_user_msg)) /\
  step ∅ (Ev_report_handling ex_user_msg) !! 1 = Some ex_report /\
  (is_Some (rr_link ex_report) <-> rr_status ex_report = ACCEPTED \/ rr_status ex_report = CLOSED).
Proof.
  assert (Hr : reachable (step ∅ (Ev_report_handling ex_user_msg)))
    by (apply reach_step, reach_empty).
  assert (Hl : step ∅ (Ev_report_handling ex_user_msg) !! 1 = Some ex_report)
    by (vm_compute; reflexivity).
  split; [exact Hr|split; [exact Hl|]].
  exact (reachable_link_iff_accepted_or_closed _ 1 ex_report Hr Hl).
Defined.

Lemma accept_subflow_commits_only_on_confirm_witness :
  py_index (split_ws "reject_link 1") 0 = Some "reject_link" /\
  run (accept_link (mkCall 20 "reject_link 1" ex_confirm_msg)) ex_db =
    (Ok tt, mkWorld ex_db
       [SendMessage 20 "Please provide the link again." MK_none;
        RegisterNextStep 20 (K_link_handling (LId_int 1))]).
Proof.
  split; [reflexivity|].
  apply (proj1 (proj2 (accept_subflow_commits_only_on_confirm ex_db))
           (mkCall 20 "reject_link 1" ex_confirm_msg) "1" 1); reflexivity.
Defined.

Lemma close_report_only_from_accepted_witness :
  run (change_report_status (mkCall 20 "close_report" ex_report_msg)) ex_db =
    (Ok tt, mkWorld ex_db
       [SendMessage (-100) "The issue has not been confirmed yet!" MK_none]).
Proof.
  exact (close_report_only_from_accepted ex_db (mkCall 20 "close_report" ex_report_msg)
           "1" 1 ex_report eq_refl eq_refl eq_refl eq_refl).
Defined.

Lemma modulus_input_rejections_witness :
  py_int (strip "1") = Some 1 /\ fmt_E 1000000 = Some "1.000000E+06" /\
  run (inverse_input_element ex_cfg (mkMessage 20 9 20 "1")) ex_db =
    (Ok tt, mkWorld ex_db [SendMessage 20 "Limitation: 2 <= n < 1.000000E+06" MK_menu]).
Proof.
  assert (H1 : py_int (strip "1") = Some 1) by (vm_compute; reflexivity).
  assert (H2 : fmt_E (MAX_MODULO ex_cfg) = Some "1.000000E+06") by (vm_compute; reflexivity).
  assert (Hlt : 1 < 2) by lia.
  split; [exact H1|split; [exact H2|]].
  exact (proj2 (proj2 (modulus_input_rejections ex_cfg (fun _ => []) (fun _ => [])
                         (mkMessage 20 9 20 "1") "idempotents" ex_db) 1 "1.000000E+06"
                  H1 (or_introl Hlt) H2)).
Defined.

Lemma matrix_input_rejections_witness :
  run (matrix_input ex_cfg no_matrix_action no_matrix_action no_matrix_action
         (mkMessage 20 8 20 ("1 2" +:+ nlS +:+ "3")) "det") ex_db =
    (Ok tt, mkWorld ex_db
       [ReplyTo 20 8 "Mismatch in row or column sizes. The matrix must be <b>rectangular</b>."
          MK_menu]).
Proof.
  apply (proj1 (proj2 (matrix_input_rejections ex_cfg no_matrix_action no_matrix_action
                         no_matrix_action (mkMessage 20 8 20 ("1 2" +:+ nlS +:+ "3")) "det" ex_db))).
  - vm_compute. reflexivity.
  - exists ["1"; "2"], ["3"]. simpl. repeat split; auto.
Defined.

(** A link followed by a no-break space (U+00A0, UTF-8 bytes C2 A0). *)
Definition nbsp : string := String (ascii_of_nat 194) (String (ascii_of_nat 160) EmptyString).
Definition ex_link_msg : Message := mkMessage 20 6 20 ("http://x/1" +:+ nbsp +:+ "issue").

Definition ex_link_call : Call :=
  mkCall 20 "accept_link 1"
    (mkMessage 20 7 20 (html_text (link_prompt_header +:+ nlS +:+ "<b>Link:</b> " +:+
                                   m_text ex_link_msg))).

Lemma confirmed_link_is_first_word_witness :
  run (accept_link ex_link_call) ex_db =
    (Ok tt, mkWorld (Store.change_status ex_db (Some 1) "accept_report" (Some "http://x/1"))
       [SendMessage 20 "The issue has been confirmed." MK_none]).
Proof.
  apply (confirmed_link_is_first_word ex_db ex_link_call "1" 1 ex_link_msg
           "http://x/1" nbsp "issue");
    first [reflexivity | split; [discriminate | reflexivity]].
Defined.

Lemma inverse_output_depends_on_residue_witness :
  run (inverse_output (fun _ _ => None) (mkMessage 20 9 20 "3") 7) ex_db =
  run (inverse_output (fun _ _ => None) (mkMessage 20 9 20 "-11") 7) ex_db.
Proof.
  apply (inverse_output_depends_on_residue ex_cfg _ _ _ 7 3 (-11) ex_db);
    [cbn; lia|reflexivity|reflexivity|reflexivity|reflexivity].
Defined.

(* ------------------------------------------------------------------ *)
(** ** [int(str(n)) = n] *)

Arguments is_digit : simpl never.
Arguments digit_val : simpl never.
Arguments is_ascii_space : simpl never.

Lemma digit_char_ok (d : Z) :
  0 <= d < 10 ->
  is_digit (ascii_of_nat (Z.to_nat d + 48)) = true /\
  digit_val (ascii_of_nat (Z.to_nat d + 48)) = d /\
  is_ascii_space (ascii_of_nat (Z.to_nat d + 48)) = false.
Proof.
  intros Hd.
  assert (d = 0 \/ d = 1 \/ d = 2 \/ d = 3 \/ d = 4 \/ d = 5 \/ d = 6 \/ d = 7 \/
          d = 8 \/ d = 9) as Hc by lia.
  repeat destruct Hc as [->|Hc]; try (subst d); repeat split; reflexivity.
Qed.

Lemma size_nat_div10 (p q : positive) :
  Z.pos q = Z.pos p / 10 -> (Pos.size_nat q < Pos.size_nat p)%nat.
Proof.
  intros Hq.
  assert (Hlt : (xO q < p)%positive).
  { pose proof (Z.mul_div_le (Z.pos p) 10 ltac:(lia)). lia. }
  apply Pos.size_nat_monotone in Hlt. simpl in Hlt. lia.
Qed.

Lemma pos_digits_read (f : nat) (p : positive) (acc : string) :
  (Pos.size_nat p <= f)%nat ->
  digits_aux (pos_digits f p acc) 0 false = digits_aux acc (Z.pos p) false /\
  (str_forall is_digit acc = true -> str_forall is_digit (pos_digits f p acc) = true) /\
  pos_digits f p acc <> EmptyString.
Proof.
  revert p acc. induction f as [|f IH]; intros p acc Hf.
  { destruct p; simpl in Hf; lia. }
  pose proof (Z.mod_pos_bound (Z.pos p) 10 ltac:(lia)) as Hm.
  destruct (digit_char_ok _ Hm) as (Hdig & Hval & _).
  assert (Hus : Ascii.eqb (ascii_of_nat (Z.to_nat (Z.pos p mod 10) + 48)) "_" = false).
  { destruct (Ascii.eqb_spec (ascii_of_nat (Z.to_nat (Z.pos p mod 10) + 48)) "_") as [E|_];
      [rewrite E in Hdig; discriminate|done]. }
  pose proof (Z.div_mod (Z.pos p) 10 ltac:(lia)) as Hdm.
  simpl. destruct (Z.pos p / 10) as [|q|q] eqn:Hq.
  - simpl. rewrite Hus, Hdig, Hval. split; [f_equal; lia|].
    split; [intros H; simpl; by rewrite ?Hdig, H|done].
  - destruct (IH q (String (ascii_of_nat (Z.to_nat (Z.pos p mod 10) + 48)) acc))
      as (H1 & H2 & H3).
    { pose proof (size_nat_div10 p q (eq_sym Hq)). lia. }
    split; [|split; [|done]].
    + rewrite H1. simpl. rewrite Hus, Hdig, Hval. f_equal. lia.
    + intros Hacc. apply H2. simpl. by rewrite ?Hdig, Hacc.
  - pose proof (Z.div_pos (Z.pos p) 10 ltac:(lia) ltac:(lia)). lia.
Qed.

(** A decimal digit is an ASCII character, and not whitespace in
    either sense. *)
Lemma digit_class (c : ascii) :
  is_digit c = true ->
  is_ascii c = true /\ is_ascii_space c = false /\ is_space_char (String c EmptyString) = false.
Proof.
  destruct c as [[] [] [] [] [] [] [] []]; vm_compute; intros H;
    (discriminate H || (split; [reflexivity|split; reflexivity])).
Qed.

Lemma strip_ascii_no_space (s : string) :
  str_forall (fun c => negb (is_ascii_space c)) s = true -> strip_ascii s = s.
Proof.
  intros H. unfold strip_ascii.
  assert (Hl : lstrip_ascii s = s).
  { destruct s as [|c s]; [done|]. simpl in *.
    apply andb_true_iff in H as [Hc _]. apply negb_true_iff in Hc. by rewrite Hc. }
  rewrite Hl. clear Hl. induction s as [|c s IH]; [done|].
  simpl in H. apply andb_true_iff in H as [Hc Hs]. apply negb_true_iff in Hc.
  simpl. rewrite (IH Hs). destruct s; [by rewrite Hc|done].
Qed.

Lemma py_str_pos_digits (p : positive) :
  exists c r, pos_digits (Pos.size_nat p) p EmptyString = String c r /\
    is_digit c = true /\ str_forall is_digit (String c r) = true /\
    py_digits (String c r) = Some (Z.pos p).
Proof.
  destruct (pos_digits_read (Pos.size_nat p) p EmptyString ltac:(lia)) as (H1 & H2 & H3).
  specialize (H2 eq_refl).
  destruct (pos_digits (Pos.size_nat p) p EmptyString) as [|c r] eqn:E; [done|].
  exists c, r. simpl in H2. apply andb_true_iff in H2 as [Hc Hr].
  split; [done|]. split; [done|]. split; [simpl; by rewrite Hc, Hr|].
  unfold py_digits. rewrite Hc. exact H1.
Qed.

Lemma py_str_Z_cases (z : Z) :
  py_str_Z z = "0" \/
  exists c r, str_forall is_digit (String c r) = true /\
    (py_str_Z z = String c r \/ py_str_Z z = String "-" (String c r)).
Proof.
  destruct z as [|p|p]; [by left| |]; right;
    destruct (py_str_pos_digits p) as (c & r & E & Hc & Hall & Hd);
    exists c, r; unfold py_str_Z; rewrite E; auto.
Qed.

Lemma py_str_Z_ascii (z : Z) : all_ascii (py_str_Z z) = true.
Proof.
  unfold all_ascii. destruct (py_str_Z_cases z) as [->|(c & r & Hall & Hz)]; [reflexivity|].
  assert (Ha : str_forall is_ascii (String c r) = true).
  { eapply str_forall_impl; [|exact Hall]. intros d Hd. by apply digit_class. }
  destruct Hz as [-> | ->]; [exact Ha|].
  change (is_ascii "-" && str_forall is_ascii (String c r) = true). by rewrite Ha.
Qed.

(** [int(str(n)) == n]. *)
Lemma py_int_py_str (z : Z) : py_int (py_str_Z z) = Some z.
Proof.
  unfold py_int, to_ascii. rewrite py_str_Z_ascii.
  assert (Hsp : forall s, str_forall is_digit s = true ->
                  str_forall (fun c => negb (is_ascii_space c)) s = true).
  { intros s. apply str_forall_impl. intros d Hd.
    apply negb_true_iff. by apply digit_class. }
  destruct z as [|p|p]; [reflexivity| |].
  - destruct (py_str_pos_digits p) as (c & r & E & Hc & Hall & Hd).
    unfold py_int_ascii, py_str_Z. rewrite E, strip_ascii_no_space by (by apply Hsp).
    destruct (Ascii.eqb_spec c "+") as [->|_]; [discriminate|].
    destruct (Ascii.eqb_spec c "-") as [->|_]; [discriminate|]. exact Hd.
  - destruct (py_str_pos_digits p) as (c & r & E & Hc & Hall & Hd).
    unfold py_int_ascii, py_str_Z. rewrite E.
    rewrite strip_ascii_no_space;
      [change (option_map Z.opp (py_digits (String c r)) = Some (Z.neg p)); by rewrite Hd|].
    change (negb (is_ascii_space "-") && str_forall (fun c => negb (is_ascii_space c))
              (String c r) = true).
    by rewrite Hsp.
Qed.

(** [str(n)] is one word. *)
Lemma py_str_Z_word (z : Z) : is_word (py_str_Z z).
Proof.
  assert (Hw : forall s, str_forall is_digit s = true ->
                 str_forall (fun c => is_ascii c && negb (is_space_char (String c EmptyString))) s
                 = true).
  { intros s. apply str_forall_impl. intros d Hd.
    destruct (digit_class d Hd) as (H1 & _ & H2). by rewrite H1, H2. }
  destruct (py_str_Z_cases z) as [->|(c & r & Hall & [-> | ->])];
    (apply ascii_word; [discriminate|]); [reflexivity|by apply Hw|].
  change ((is_ascii "-" && negb (is_space_char "-")) &&
          str_forall (fun c => is_ascii c && negb (is_space_char (String c EmptyString)))
            (String c r) = true).
  by rewrite Hw.
Qed.

(* ------------------------------------------------------------------ *)
(** ** Menus and the callback handlers of tg.py *)

(** [x in [...]] on strings. *)
Definition str_in (x : string) (l : list string) : bool := existsb (String.eqb x) l.

(** The buttons of an inline keyboard, in order. *)
Definition markup_buttons (mk : Markup) : list (string * string) :=
  match mk with MK_inline bs => bs | _ => [] end.

(** [bot.edit_message_reply_markup(chat_id, message_id, reply_markup)]. *)
Record MarkupEdit := mkEdit { e_chat : Z; e_message_id : Z; e_markup : Markup }.

Section Menus.

Variable cfg : Config.

(** [get_report_menu]. *)
Definition get_report_menu (user_id : Z) : Markup :=
  MK_inline ([("Report a bug!", "report")] ++
             (if is_admin cfg user_id then [("View errors", "view_reports")] else [])).

(** [get_cancel_menu]. *)
Definition get_cancel_menu : Markup := MK_inline [("Back", "cancel")].

(** [get_type_report_menu]. *)
Definition get_type_report_menu (user_id : Z) : Markup :=
  MK_inline (if is_admin cfg user_id then
               [("New bugs", "report_status_NEW");
                ("Accepted mistakes", "report_status_ACCEPTED");
                ("Rejected errors", "report_status_REJECTED");
                ("Closed Bugs", "report_status_CLOSED");
                ("Back", "back_button")]
             else []).

(** [get_admin_menu]: [None] where the function ends without a
    [return]. *)
Definition get_admin_menu (call : Call) : option Markup :=
  if negb (str_in (c_data call) ["report_status_CLOSED"; "report_status_REJECTED"])
     && is_admin cfg (c_from_id call) then
    Some (MK_inline
            ((if negb (str_in (c_data call) ["report_status_ACCEPTED"])
              then [("accept mistake", "accept_report")] else []) ++
             [("Reject error", "reject_report"); ("close error", "close_report")]))
  else None.

(** [choose_report_types] and [back_func]: the keyboard of the message
    the button belongs to is replaced. *)
Definition choose_report_types (call : Call) : MarkupEdit :=
  mkEdit (m_chat_id (c_message call)) (m_message_id (c_message call))
    (get_type_report_menu (c_from_id call)).

Definition back_func (call : Call) : MarkupEdit :=
  mkEdit (m_chat_id (c_message call)) (m_message_id (c_message call))
    (get_report_menu (c_from_id call)).

End Menus.

(** The callback query handlers, in the order tg.py registers them. *)
Inductive CallbackHandler :=
| CB_callback_inline | CB_cancel_report | CB_choose_report_types | CB_list_reports
| CB_change_report_status | CB_accept_link | CB_back_func.

(** Their [func] filters on [call.data]; [None] where the filter raises
    ([call.data.split()[0]] on data with no word). *)
Definition callback_filters : list (CallbackHandler * (string -> option bool)) :=
  [(CB_callback_inline, fun d => Some (String.eqb d "report"));
   (CB_cancel_report, fun d => Some (String.eqb d "cancel"));
   (CB_choose_report_types, fun d => Some (String.eqb d "view_reports"));
   (CB_list_reports, fun d => Some (str_in d ["report_status_NEW"; "report_status_REJECTED";
                                              "report_status_ACCEPTED"; "report_status_CLOSED"]));
   (CB_change_report_status, fun d => Some (str_in d ["accept_report"; "reject_report"; "close_report"]));
   (CB_accept_link, fun d => option_map (fun w => str_in w ["accept_link"; "reject_link"])
                                         (py_index (split_ws d) 0));
   (CB_back_func, fun d => Some (String.eqb d "back_button"))].

(** The handlers whose filter accepts [d], and whether some filter
    raises on it. *)
Definition callback_targets (d : string) : list CallbackHandler :=
  map fst (List.filter (fun hf => match snd hf d with Some true => true | _ => false end)
             callback_filters).

Definition callback_filter_raises (d : string) : bool :=
  existsb (fun hf => match snd hf d with None => true | Some _ => false end) callback_filters.

(* ------------------------------------------------------------------ *)
(** ** Listing the reports of one status *)

(** [print] of an optional string column: [None] prints as "None". *)
Definition py_str_opt (o : option string) : string :=
  match o with Some s => s | None => "None" end.

Section Listing.

Variable cfg : Config.
(** Modelled from the spec: [ReportRecord.get_reports(db, status_token)]
    (models.py is not in src/) gives the reports of one status bucket,
    as (id, record) pairs in the order the store returns them. *)
Variable get_reports : DB -> string -> list (Z * ReportRecord).
(** The columns the report table of this development leaves out: the
    timestamp of a report id, and how a status prints. *)
Variable timestamp : Z -> string.
Variable status_str : status -> string.

(** The text of one report in [list_reports]. *)
Definition report_text (i : Z) (r : ReportRecord) : string :=
  "Report id: " +:+ py_str_Z i +:+ nlS +:+ "User id: " +:+ py_str_Z (rr_user_id r) +:+ nlS +:+
  "Timestamp: " +:+ timestamp i +:+ nlS +:+ nlS +:+
  "Problem statement:" +:+ nlS +:+ rr_text r +:+ nlS +:+ nlS +:+
  "Status: <b>" +:+ status_str (rr_status r) +:+ "</b>" +:+ nlS +:+
  "Link: " +:+ py_str_opt (rr_link r).

(** [for report in reports: ...]. *)
Fixpoint for_each {A} (l : list A) (f : A -> M unit) : M unit :=
  match l with
  | [] => ret tt
  | x :: l' => f x ;; for_each l' f
  end.

(** [list_reports]: [reply_markup=None] sends no keyboard. *)
Definition list_reports (call : Call) : M unit :=
  db <- get_db ;;
  let reports := get_reports db (c_data call) in
  let mk := match get_admin_menu cfg call with Some mk => mk | None => MK_none end in
  for_each reports (fun '(i, r) =>
    send_message (m_chat_id (c_message call)) (report_text i r) mk).

End Listing.

(* ------------------------------------------------------------------ *)
(** ** /factorize, /euclid, /calc *)

Section Arith.

Variable cfg : Config.
(** [Config.FACTORIZE_MAX], and the collaborators of [rings]:
    [factorize], [factorize_str], [ext_gcd] (giving [d, x, y]). *)
Variable FACTORIZE_MAX : Z.
Variable Factorization : Type.
Variable factorize : Z -> Factorization.
Variable factorize_str : Factorization -> string.
Variable ext_gcd : Z -> Z -> Z * Z * Z.

(** [factorize_output]. *)
Definition factorize_output (message : Message) : M (option string) :=
  let chat := m_chat_id message in
  match py_int (strip (m_text message)) with
  | None => send_message chat "Input data error" MK_menu ;; ret None
  | Some n =>
      if Z.ltb n 2 || Z.ltb FACTORIZE_MAX n then
        lim <- lift OverflowError (fmt_E FACTORIZE_MAX) ;;
        send_message chat
          ("Factorization is available for positive integers n: 2 <= n <= " +:+ lim) MK_none ;;
        ret None
      else
        let answer := py_str_Z n +:+ " = " +:+ factorize_str (factorize n) in
        send_message chat answer MK_none ;; ret (Some answer)
  end.

(** [a, b = map(int, message.text.strip().split(" "))]: every way this
    fails (a piece that is no integer, fewer or more than two pieces)
    raises [ValueError], here [None]. *)
Definition euclid_parse (s : string) : option (Z * Z) :=
  match split_sep " " (strip s) with
  | [p; q] =>
      match py_int p, py_int q with
      | Some a, Some b => Some (a, b)
      | _, _ => None
      end
  | _ => None
  end.

(** [euclid_output]. *)
Definition euclid_output (message : Message) : M (option string) :=
  let chat := m_chat_id message in
  match euclid_parse (m_text message) with
  | None => send_message chat "Input data error" MK_menu ;; ret None
  | Some (a, b) =>
      let '(d, x, y) := ext_gcd a b in
      let answer :=
        "GCD (Greatest Common Divisor)(" +:+ py_str_Z a +:+ ", " +:+ py_str_Z b +:+
        ") = " +:+ py_str_Z d +:+ nlS +:+ nlS +:+
        "<u>Equation solution:</u>" +:+ nlS +:+ py_str_Z a +:+ "*x + " +:+
        (if Z.leb 0 b then py_str_Z b else "(" +:+ py_str_Z b +:+ ")") +:+
        "*y <b>= " +:+ py_str_Z d +:+ "</b>" +:+ nlS +:+
        "x = " +:+ py_str_Z x +:+ nlS +:+ "y = " +:+ py_str_Z y +:+ nlS +:+ nlS +:+
        "<u>Attention</u>" +:+ nlS +:+
        "<b>Pay attention to the form of the equation!</b>" +:+ nlS +:+
        "The equation of the form ax + by = GCD(a, b) is being solved!" in
      send_message chat answer MK_none ;; ret (Some answer)
  end.

(** What [safe_eval] does with an expression: a value, given as
    [str(value)], or an exception, given as the names of its class and
    of every class it inherits from (its MRO): an [except C] clause
    catches it when [C] is one of them. *)
Inductive EvalOutcome := EvalValue (s : string) | EvalRaise (mro : list string).

Variable safe_eval : string -> EvalOutcome.

(** The [except] clauses of [calc_output], in order, with the message
    and keyboard each one sends. *)
Definition calc_clauses : list (string * (string * Markup)) :=
  [("InvalidSyntax", ("Syntax error in the expression", MK_menu));
   ("InvalidName", ("Unknown variable encountered", MK_menu));
   ("InvalidArguments", ("Incorrect usage of function", MK_none));
   ("CalculationLimitError", ("Reached the limit of computation complexity", MK_menu));
   ("ZeroDivisionError", ("During execution, division by zero was encountered", MK_menu));
   ("ArithmeticError", ("Arithmetic error", MK_menu));
   ("ValueError", ("Failed to recognize the value", MK_menu))].

(** The first clause that names a class of the exception. *)
Definition first_clause {A} (cl : list (string * A)) (mro : list string) : option A :=
  option_map snd (find (fun c => str_in (fst c) mro) cl).

(** [calc_output]; [None] where the exception matches no clause and
    leaves the handler. *)
Definition calc_output (message : Message) : option (M (option string)) :=
  let chat := m_chat_id message in
  match safe_eval (m_text message) with
  | EvalValue answer => Some (send_message chat answer MK_menu ;; ret (Some answer))
  | EvalRaise mro =>
      match first_clause calc_clauses mro with
      | Some (text, mk) => Some (send_message chat text mk ;; ret None)
      | None => None
      end
  end.

End Arith.

(* ------------------------------------------------------------------ *)
(** ** /broadcast *)

Section Broadcast.

(** The ids [db.query(User).all()] returns, in order (the user table is
    not part of [DB]), and whether [bot.send_message] to a user goes
    through ([false]: [ApiTelegramException], e.g. the user blocked the
    bot).  A message that goes through is a [SendMessage] effect. *)
Variable users : list Z.
Variable delivers : Z -> bool.

Fixpoint broadcast_loop (text : string) (us : list Z) (blocked_count : Z) : M Z :=
  match us with
  | [] => ret blocked_count
  | u :: us' =>
      if delivers u then send_message u text MK_none ;; broadcast_loop text us' blocked_count
      else broadcast_loop text us' (blocked_count + 1)
  end.

(** [broadcast]. *)
Definition broadcast (message : Message) : M unit :=
  blocked_count <- broadcast_loop (m_text message) users 0 ;;
  send_message (m_chat_id message)
    ("Mailing completed successfully!" +:+ nlS +:+
     "The mailing was not received. " +:+ py_str_Z blocked_count) MK_none.

End Broadcast.

(* ------------------------------------------------------------------ *)
(** ** Facts about strings used below *)

Lemma digit_plain (c : ascii) :
  is_digit c = true -> negb (Ascii.eqb c "<" || Ascii.eqb c ">" || Ascii.eqb c "&") = true.
Proof.
  destruct c as [[] [] [] [] [] [] [] []]; vm_compute; intros H; (discriminate H || reflexivity).
Qed.

Lemma py_str_Z_plain (z : Z) : plain_text (py_str_Z z) = true.
Proof.
  unfold plain_text.
  destruct z as [|p|p]; [reflexivity| |];
    destruct (py_str_pos_digits p) as (c & r & E & Hc & Hall & Hd);
    unfold py_str_Z; rewrite E.
  - exact (str_forall_impl _ _ _ digit_plain Hall).
  - exact (str_forall_impl _ _ _ digit_plain Hall).
Qed.

Lemma strip_tags_app (x y : string) :
  plain_text x = true -> strip_tags_aux false (x +:+ y) = x +:+ strip_tags_aux false y.
Proof.
  induction x as [|c x IH]; intros H; [done|].
  simpl in H. apply andb_true_iff in H as [Hc Hx]. rewrite !str_app_cons. simpl.
  destruct (Ascii.eqb c "<") eqn:E; [discriminate Hc|]. by rewrite (IH Hx).
Qed.

(** [str.split(sep)] gives one piece more than there are separators. *)
Fixpoint count_char (a : ascii) (s : string) : nat :=
  match s with
  | EmptyString => 0
  | String c s' => (if Ascii.eqb c a then 1 else 0) + count_char a s'
  end.

Lemma split_sep_length (sep : ascii) (s : string) :
  length (split_sep sep s) = S (count_char sep s).
Proof.
  induction s as [|c s IH]; simpl; [done|].
  destruct (Ascii.eqb c sep); simpl; [by rewrite IH|].
  destruct (split_sep sep s) as [|t ts]; simpl in *; lia.
Qed.

(* ------------------------------------------------------------------ *)
(** ** The review menus and the routing of callback data *)

(** The review buttons [list_reports] attaches: none for a caller who is
    not an admin or for a listing of REJECTED or CLOSED reports;
    otherwise "Reject error" and "close error", and "accept mistake"
    first unless the listing is of ACCEPTED reports. *)
Theorem admin_menu_actions (cfg : Config) (call : Call) :
  (get_admin_menu cfg call = None <->
     is_admin cfg (c_from_id call) = false \/
     c_data call = "report_status_CLOSED" \/ c_data call = "report_status_REJECTED") /\
  (forall mk, get_admin_menu cfg call = Some mk ->
     map snd (markup_buttons mk) =
       ((if String.eqb (c_data call) "report_status_ACCEPTED" then [] else ["accept_report"]) ++
        ["reject_report"; "close_report"])%list).
Proof.
  destruct call as [u d msg]. unfold get_admin_menu, str_in. simpl.
  destruct (String.eqb_spec d "report_status_CLOSED") as [->|H1]; simpl.
  { split; [split; [intros _; by right; left|done]|done]. }
  destruct (String.eqb_spec d "report_status_REJECTED") as [->|H2]; simpl.
  { split; [split; [intros _; by right; right|done]|done]. }
  destruct (is_admin cfg u); simpl.
  - split; [split; [done|intros [H|[H|H]]; done]|].
    intros mk [= <-]. simpl. by destruct (String.eqb d "report_status_ACCEPTED").
  - split; [split; [intros _; by left|done]|done].
Qed.

Ltac route_button :=
  split; [vm_compute; reflexivity|];
  lazymatch goal with
  | |- exists h, callback_targets ?d = [h] /\ _ =>
      let v := eval vm_compute in (callback_targets d) in
      lazymatch v with [?h] => exists h end
  end;
  split; [vm_compute; reflexivity|];
  intros HA; first [discriminate HA | by left | by right].

(** Every button of the report menu ([back_func]), of the status menu
    ([choose_report_types]), of the "Back" menu of a report being
    written and of the review menu of [list_reports] carries data that
    exactly one callback handler accepts, and no handler's filter raises
    on it.  For a caller who is not an admin these buttons reach only
    [callback_inline] and [cancel_report]. *)
Theorem menu_buttons_route (cfg : Config) (call : Call) (b : string * string) :
  In b (markup_buttons (e_markup (back_func cfg call)) ++
        markup_buttons (e_markup (choose_report_types cfg call)) ++
        markup_buttons get_cancel_menu ++
        from_option markup_buttons [] (get_admin_menu cfg call)) ->
  callback_filter_raises (snd b) = false /\
  exists h, callback_targets (snd b) = [h] /\
    (is_admin cfg (c_from_id call) = false -> h = CB_callback_inline \/ h = CB_cancel_report).
Proof.
  destruct call as [u d msg].
  unfold back_func, choose_report_types, get_report_menu, get_type_report_menu, get_admin_menu.
  simpl. destruct (is_admin cfg u) eqn:Ha; simpl.
  - destruct (String.eqb d "report_status_CLOSED"), (String.eqb d "report_status_REJECTED"),
      (String.eqb d "report_status_ACCEPTED"); simpl;
      intros H; repeat (destruct H as [<-|H]; [route_button|]); contradiction.
  - rewrite andb_false_r. simpl.
    intros H; repeat (destruct H as [<-|H]; [route_button|]); contradiction.
Qed.

Lemma link_data_route (w : string) :
  callback_targets ("accept_link " +:+ w) = [CB_accept_link] /\
  callback_filter_raises ("accept_link " +:+ w) = false /\
  callback_targets ("reject_link " +:+ w) = [CB_accept_link] /\
  callback_filter_raises ("reject_link " +:+ w) = false.
Proof. vm_compute. repeat split. Qed.

(** The two buttons of the link prompt reach [accept_link] and no other
    handler, and carry the report id as their second word, for every id
    [link_handling] is given: a word of the report message
    ([change_report_status]) or an integer ([accept_link]). *)
Theorem link_buttons_route (db : DB) (m : Message) (id : LinkId) :
  (forall s, id = LId_str s -> exists t, In s (split_ws t)) ->
  exists text bs,
    run (link_handling m id) db =
      (Ok tt, mkWorld db [SendMessage (m_chat_id m) text (MK_inline bs)]) /\
    Forall (fun b => callback_targets (snd b) = [CB_accept_link] /\
                     callback_filter_raises (snd b) = false /\
                     py_index (split_ws (snd b)) 1 = Some (fmt_link_id id)) bs.
Proof.
  intros Hid.
  assert (Hw : is_word (fmt_link_id id)).
  { destruct id as [s|z]; simpl.
    - destruct (Hid s eq_refl) as [t Ht]. exact (split_ws_words t s Ht).
    - apply py_str_Z_word. }
  destruct (link_data_route (fmt_link_id id)) as (H1 & H2 & H3 & H4).
  eexists _, _. split; [reflexivity|].
  repeat constructor; cbn [snd]; try assumption.
  - change ("accept_link " +:+ fmt_link_id id) with ("accept_link" +:+ String " " (fmt_link_id id)).
    rewrite split_ws_two_words; [done| |done]. split; [done|reflexivity].
  - change ("reject_link " +:+ fmt_link_id id) with ("reject_link" +:+ String " " (fmt_link_id id)).
    rewrite split_ws_two_words; [done| |done]. split; [done|reflexivity].
Qed.

(* ------------------------------------------------------------------ *)
(** ** Listing and reviewing reports *)

Lemma for_each_emit {A} (l : list A) (f : A -> M unit) (g : A -> Effect) (w : World) :
  (forall x, f x = emit (g x)) ->
  for_each l f w = (Ok tt, mkWorld (w_db w) (w_out w ++ map g l)).
Proof.
  intros Hf. revert w. induction l as [|x l IH]; intros w; simpl.
  - unfold ret. destruct w; simpl. by rewrite app_nil_r.
  - unfold bind. rewrite Hf. unfold emit. rewrite IH. simpl. by rewrite <- app_assoc.
Qed.

(** [list_reports] sends, to the chat of the button, one message per
    report [get_reports] returns, in that order, all with the same
    keyboard, and leaves the table as it is.  It does not check the
    caller: a caller who is not an admin gets every report of the
    status, with no keyboard. *)
Theorem list_reports_one_message_each (cfg : Config)
    (get_reports : DB -> string -> list (Z * ReportRecord))
    (timestamp : Z -> string) (status_str : status -> string) (call : Call) (db : DB) :
  exists mk,
    (is_admin cfg (c_from_id call) = false -> mk = MK_none) /\
    run (list_reports cfg get_reports timestamp status_str call) db =
      (Ok tt, mkWorld db
         (map (fun '(i, r) => SendMessage (m_chat_id (c_message call))
                                (report_text timestamp status_str i r) mk)
              (get_reports db (c_data call)))).
Proof.
  exists (match get_admin_menu cfg call with Some mk => mk | None => MK_none end). split.
  - intros Ha. unfold get_admin_menu. by rewrite Ha, andb_false_r.
  - unfold run, list_reports, get_db, bind. simpl.
    rewrite (for_each_emit _ _ (fun '(i, r) => SendMessage (m_chat_id (c_message call))
               (report_text timestamp status_str i r)
               (match get_admin_menu cfg call with Some mk => mk | None => MK_none end))).
    + done.
    + by intros [i r].
Qed.

Lemma split_ws_report_id (y : string) :
  split_ws ("Report id: " +:+ y) = "Report" :: "id:" :: split_ws y.
Proof. reflexivity. Qed.

(** The third word of a listed report, as Telegram gives the message
    back, is the report's id. *)
Lemma listed_report_id (timestamp : Z -> string) (status_str : status -> string)
    (i : Z) (r : ReportRecord) :
  py_index (split_ws (html_text (report_text timestamp status_str i r))) 2 = Some (py_str_Z i).
Proof.
  unfold html_text, report_text.
  rewrite (strip_tags_app "Report id: ") by reflexivity.
  rewrite (strip_tags_app (py_str_Z i)) by apply py_str_Z_plain.
  rewrite (strip_tags_app nlS) by reflexivity.
  rewrite split_ws_report_id.
  destruct (py_str_Z_word i) as [Hne Hw].
  rewrite (split_ws_app (py_str_Z i)); [reflexivity|done|done|reflexivity].
Qed.

(** The review buttons under a listed report act on that report: the id
    [change_report_status] reads from the message is the report's own.
    reject_report applies the reject transition to it, close_report
    closes it if it is ACCEPTED and otherwise only answers, and
    accept_report asks for a link with the prompt bound to the id. *)
Theorem listed_report_actions (db : DB) (timestamp : Z -> string) (status_str : status -> string)
    (i : Z) (r : ReportRecord) (c : Call) :
  db !! i = Some r ->
  m_text (c_message c) = html_text (report_text timestamp status_str i r) ->
  let chat := m_chat_id (c_message c) in
  (c_data c = "reject_report" ->
   run (change_report_status c) db =
     (Ok tt, mkWorld (<[i := Store.transition "reject_report" None r]> db)
        [SendMessage chat "The issue has been rejected." MK_none])) /\
  (c_data c = "close_report" ->
   run (change_report_status c) db =
     if status_eqb (rr_status r) ACCEPTED
     then (Ok tt, mkWorld (<[i := Store.transition "close_report" None r]> db)
             [SendMessage chat "The issue has been closed." MK_none])
     else (Ok tt, mkWorld db [SendMessage chat "The issue has not been confirmed yet!" MK_none])) /\
  (c_data c = "accept_report" ->
   run (change_report_status c) db =
     (Ok tt, mkWorld db [SendMessage chat "Provide a link to the GitHub issue, please." MK_none;
                         RegisterNextStep chat (K_link_handling (LId_str (py_str_Z i)))])).
Proof.
  intros Hr Ht chat.
  assert (Hid := listed_report_id timestamp status_str i r). rewrite <- Ht in Hid.
  assert (Hk : Store.db_key (py_str_Z i) = Some i) by apply py_int_py_str.
  unfold run, change_report_status; unfold_m.
  split; [|split]; intros Hd; rewrite Hid; simpl; rewrite Hd; simpl.
  - unfold Store.change_status. rewrite Hk, Hr. done.
  - unfold Store.get_report_by_id. rewrite Hk, Hr. simpl.
    destruct (status_eqb (rr_status r) ACCEPTED); simpl; [|done].
    by rewrite Hr.
  - done.
Qed.

(** The link prompt for a report id [j] (given as an integer, or as the
    string [str(j)] read from a listed report) round-trips the id:
    "Reject" asks for the link again with the prompt bound to [j] once
    more, so the id survives any number of rejections, and "Confirm"
    applies [change_status] to report [j] with the echoed link. *)
Theorem link_prompt_round_trip (db : DB) (m : Message) (id : LinkId) (j : Z) :
  fmt_link_id id = py_str_Z j ->
  exists text dc dr,
    run (link_handling m id) db =
      (Ok tt, mkWorld db [SendMessage (m_chat_id m) text (MK_inline [("Confirm", dc); ("Reject", dr)])]) /\
    (forall c : Call, c_data c = dr ->
       run (accept_link c) db =
         (Ok tt, mkWorld db
            [SendMessage (m_chat_id (c_message c)) "Please provide the link again." MK_none;
             RegisterNextStep (m_chat_id (c_message c)) (K_link_handling (LId_int j))])) /\
    (forall (c : Call) (line link : string), c_data c = dc ->
       py_index (split_sep nl (m_text (c_message c))) 1 = Some line ->
       py_index (split_ws line) 1 = Some link ->
       run (accept_link c) db =
         (Ok tt, mkWorld (Store.change_status db (Some j) "accept_report" (Some link))
            [SendMessage (m_chat_id (c_message c)) "The issue has been confirmed." MK_none])).
Proof.
  intros Hf.
  assert (Hw : is_word (py_str_Z j)) by apply py_str_Z_word.
  assert (Hs : forall k, is_word k ->
            split_ws (k +:+ String " " (py_str_Z j)) = [k; py_str_Z j]).
  { intros k Hk. by apply split_ws_two_words. }
  exists (link_prompt_header +:+ nlS +:+ "<b>Link:</b> " +:+ m_text m),
    ("accept_link " +:+ py_str_Z j), ("reject_link " +:+ py_str_Z j).
  split; [unfold run, link_handling; by rewrite Hf|split].
  - intros c Hd. unfold run, accept_link; unfold_m.
    rewrite Hd. change ("reject_link " +:+ py_str_Z j) with ("reject_link" +:+ String " " (py_str_Z j)).
    rewrite Hs by (split; [done|reflexivity]). unfold py_index. simpl.
    by rewrite py_int_py_str.
  - intros c line link Hd Hl Hk. apply (accept_link_confirm_run db c (py_str_Z j) j line link); try done.
    + rewrite Hd. change ("accept_link " +:+ py_str_Z j) with ("accept_link" +:+ String " " (py_str_Z j)).
      rewrite Hs by (split; [done|reflexivity]). done.
    + rewrite Hd. change ("accept_link " +:+ py_str_Z j) with ("accept_link" +:+ String " " (py_str_Z j)).
      rewrite Hs by (split; [done|reflexivity]). done.
    + apply py_int_py_str.
Qed.

(* ------------------------------------------------------------------ *)
(** ** The number dialogues *)

(** A valid modulus with a command that is neither "idempotents" nor
    "nilpotents" gets no answer at all: [ring_input] binds
    [message.text[1:]], so "/idempotents@mathbot" binds
    "idempotents@mathbot", and [ring_output] returns silently. *)
Theorem ring_output_unknown_command (cfg : Config) (fi : Z -> list (Z * Z)) (fn : Z -> list Z)
    (m : Message) (command : string) (n : Z) (db : DB) :
  command <> "idempotents" -> command <> "nilpotents" ->
  py_int (strip (m_text m)) = Some n -> 2 <= n < MAX_MODULO cfg ->
  run (ring_output cfg fi fn m command) db = (Ok None, mkWorld db []).
Proof.
  intros H1 H2 Hn Hr. unfold run, ring_output. rewrite Hn.
  replace (Z.leb (MAX_MODULO cfg) n || Z.ltb n 2) with false
    by (symmetry; apply orb_false_iff; split; [apply Z.leb_gt|apply Z.ltb_ge]; lia).
  apply String.eqb_neq in H1, H2. rewrite H1, H2. reflexivity.
Qed.


(** /det, /ref and /m_inverse bind an action [action_mapper] knows, so
    the matrix step they register never raises [KeyError]: when the
    matrix actions themselves do not raise, it ends normally whatever
    text the next text message has. *)
Theorem matrix_commands_known_action (cfg : Config)
    (calc_det calc_ref calc_inv : Message -> string -> Matrix -> M (option string))
    (m m2 : Message) (db db2 : DB) (w : World) (a : string) :
  (forall msg act mat w0,
     (exists v w1, calc_det msg act mat w0 = (Ok v, w1)) /\
     (exists v w1, calc_ref msg act mat w0 = (Ok v, w1)) /\
     (exists v w1, calc_inv msg act mat w0 = (Ok v, w1))) ->
  run (det m) db = (Ok tt, w) \/ run (ref_input m) db = (Ok tt, w) \/
  run (inv_input m) db = (Ok tt, w) ->
  In (RegisterNextStep (m_chat_id m) (K_matrix_input a)) (w_out w) ->
  is_Some (action_mapper calc_det calc_ref calc_inv a) /\
  exists w2, run (matrix_input cfg calc_det calc_ref calc_inv m2 a) db2 = (Ok tt, w2).
Proof.
  intros Hcalc Hrun Hin.
  assert (Ha : a = "det" \/ a = "ref" \/ a = "m_inverse").
  { destruct Hrun as [H|[H|H]]; injection H as <-; simpl in Hin;
      (destruct Hin as [Hin|[Hin|[]]]; [discriminate|injection Hin as <-]); auto. }
  assert (Hf : exists f, action_mapper calc_det calc_ref calc_inv a = Some f /\
                 forall msg act mat w0, exists v w1, f msg act mat w0 = (Ok v, w1)).
  { destruct Ha as [-> | [-> | ->]]; eexists; (split; [reflexivity|]); apply Hcalc. }
  destruct Hf as (f & Hf & Hok). split; [by rewrite Hf|].
  unfold run, matrix_input. unfold_m.
  destruct (negb _); [by eexists|].
  destruct (Matrix_from_list _) as [mat|]; [|by eexists].
  destruct (Z.ltb _ _); [by eexists|].
  rewrite Hf. simpl. destruct (Hok m2 a mat (mkWorld db2 [])) as (v & w1 & ->).
  by eexists.
Qed.

(** A number outside [2 <= n <= FACTORIZE_MAX] gets the range message,
    with [FACTORIZE_MAX] as [format(FACTORIZE_MAX, "E")] shows it and
    without the menu keyboard, and [factorize] plays no part in the
    answer. *)
Theorem factorize_output_out_of_range (FACTORIZE_MAX : Z) (Factorization : Type)
    (factorize : Z -> Factorization) (factorize_str : Factorization -> string)
    (m : Message) (n : Z) (lim : string) (db : DB) :
  py_int (strip (m_text m)) = Some n -> n < 2 \/ FACTORIZE_MAX < n ->
  fmt_E FACTORIZE_MAX = Some lim ->
  run (factorize_output FACTORIZE_MAX Factorization factorize factorize_str m) db =
    (Ok None, mkWorld db
       [SendMessage (m_chat_id m)
          ("Factorization is available for positive integers n: 2 <= n <= " +:+ lim) MK_none]).
Proof.
  intros Hn Hr Hlim. unfold run, factorize_output. rewrite Hn.
  replace (Z.ltb n 2 || Z.ltb FACTORIZE_MAX n) with true
    by (symmetry; apply orb_true_iff; destruct Hr; [left|right]; by apply Z.ltb_lt).
  unfold_m. rewrite Hlim. reflexivity.
Qed.

(** /euclid answers only when the stripped text has exactly one space:
    two numbers separated by a tab, by two spaces, or a single number
    get "Input data error". *)
Theorem euclid_output_needs_one_space (ext_gcd : Z -> Z -> Z * Z * Z) (m : Message) (db : DB) :
  count_char " " (strip (m_text m)) <> 1%nat ->
  run (euclid_output ext_gcd m) db =
    (Ok None, mkWorld db [SendMessage (m_chat_id m) "Input data error" MK_menu]).
Proof.
  intros Hc. unfold run, euclid_output, euclid_parse.
  pose proof (split_sep_length " " (strip (m_text m))) as Hl.
  destruct (split_sep " " (strip (m_text m))) as [|p [|q [|x rest]]]; simpl in Hl;
    (lia || reflexivity).
Qed.

Lemma euclid_parse_numbers (a b : Z) :
  euclid_parse (py_str_Z a +:+ String " " (py_str_Z b)) = Some (a, b).
Proof.
  pose proof (py_str_Z_word a) as Ha. pose proof (py_str_Z_word b) as Hb.
  unfold euclid_parse.
  assert (Hs : strip (py_str_Z a +:+ String " " (py_str_Z b)) =
               py_str_Z a +:+ String " " (py_str_Z b)).
  { assert (Hc : chars (py_str_Z a +:+ String " " (py_str_Z b)) =
                 (chars (py_str_Z a) ++ String " " EmptyString :: chars (py_str_Z b))%list).
    { rewrite chars_app by (by apply joins_no_cont). by rewrite chars_cons_ascii. }
    destruct Ha as [Hane Haw], Hb as [Hbne Hbw].
    destruct (chars (py_str_Z a)) as [|a0 As] eqn:EA; [by apply chars_nil in EA|].
    assert (Hbn : chars (py_str_Z b) <> []) by (intros E; by apply chars_nil in E).
    destruct (List.exists_last Hbn) as [Bs [bl EB]].
    rewrite EB in Hc, Hbw. simpl in Haw. apply andb_true_iff in Haw as [Ha0 _].
    rewrite forallb_app in Hbw. apply andb_true_iff in Hbw as [_ Hbl]. simpl in Hbl.
    rewrite andb_true_r in Hbl.
    apply (strip_keep _ a0 bl (As ++ String " " EmptyString :: Bs)%list);
      [|by apply negb_true_iff|by apply negb_true_iff].
    rewrite Hc. simpl. f_equal. by rewrite <- app_assoc. }
  rewrite Hs.
  pose proof (word_no_ascii_space " " _ eq_refl eq_refl Ha) as Ha'.
  pose proof (word_no_ascii_space " " _ eq_refl eq_refl Hb) as Hb'.
  assert (Hb1 : split_sep " " (py_str_Z b) = [py_str_Z b]).
  { rewrite <- (str_app_nil_r (py_str_Z b)) at 1.
    rewrite (split_sep_app " " (py_str_Z b) EmptyString EmptyString []) by done.
    by rewrite str_app_nil_r. }
  assert (Hy : split_sep " " (String " " (py_str_Z b)) = EmptyString :: [py_str_Z b]).
  { simpl. by rewrite Hb1. }
  rewrite (split_sep_app " " (py_str_Z a) _ _ _ Ha' Hy).
  rewrite str_app_nil_r, !py_int_py_str. done.
Qed.

(** /euclid reads back any two integers written as [str(a) + " " +
    str(b)]: it answers with the GCD line for exactly [a] and [b]. *)
Theorem euclid_output_reads_numbers (ext_gcd : Z -> Z -> Z * Z * Z) (m : Message) (db : DB)
    (a b : Z) :
  m_text m = py_str_Z a +:+ String " " (py_str_Z b) ->
  exists answer rest,
    run (euclid_output ext_gcd m) db =
      (Ok (Some answer), mkWorld db [SendMessage (m_chat_id m) answer MK_none]) /\
    answer = "GCD (Greatest Common Divisor)(" +:+ py_str_Z a +:+ ", " +:+ py_str_Z b +:+
             ") = " +:+ py_str_Z (fst (fst (ext_gcd a b))) +:+ rest.
Proof.
  intros Ht. unfold run, euclid_output. rewrite Ht, euclid_parse_numbers.
  destruct (ext_gcd a b) as [[d x] y]. eexists _, _. split; reflexivity.
Qed.

Lemma str_in_true (x : string) (l : list string) : In x l -> str_in x l = true.
Proof.
  intros H. unfold str_in. apply existsb_exists. exists x. split; [done|]. apply String.eqb_refl.
Qed.

Lemma str_in_false (x : string) (l : list string) : ~ In x l -> str_in x l = false.
Proof.
  intros H. unfold str_in. apply not_true_iff_false. intros Hx.
  apply existsb_exists in Hx as (y & Hy & Heq). apply String.eqb_eq in Heq. subst. done.
Qed.

(** The [except] clauses of /calc are tried in order, so for an
    exception that is none of the expression errors of [safe_eval]: a
    [ZeroDivisionError] gets its own message although it is also an
    [ArithmeticError]; another [ArithmeticError] gets "Arithmetic
    error"; then [ValueError]; any other exception leaves the
    handler. *)
Theorem calc_output_clause_order (safe_eval : string -> EvalOutcome) (m : Message) (db : DB)
    (mro : list string) :
  safe_eval (m_text m) = EvalRaise mro ->
  ~ In "InvalidSyntax" mro -> ~ In "InvalidName" mro -> ~ In "InvalidArguments" mro ->
  ~ In "CalculationLimitError" mro ->
  let sent text := exists h, calc_output safe_eval m = Some h /\
                     run h db = (Ok None, mkWorld db [SendMessage (m_chat_id m) text MK_menu]) in
  (In "ZeroDivisionError" mro -> sent "During execution, division by zero was encountered") /\
  (~ In "ZeroDivisionError" mro -> In "ArithmeticError" mro -> sent "Arithmetic error") /\
  (~ In "ZeroDivisionError" mro -> ~ In "ArithmeticError" mro -> In "ValueError" mro ->
   sent "Failed to recognize the value") /\
  (~ In "ZeroDivisionError" mro -> ~ In "ArithmeticError" mro -> ~ In "ValueError" mro ->
   calc_output safe_eval m = None).
Proof.
  intros He H1 H2 H3 H4 sent. unfold sent, calc_output, first_clause. rewrite He. simpl.
  rewrite (str_in_false _ _ H1), (str_in_false _ _ H2), (str_in_false _ _ H3),
    (str_in_false _ _ H4).
  split; [|split; [|split]].
  - intros H5. rewrite (str_in_true _ _ H5). by eexists.
  - intros H5 H6. rewrite (str_in_false _ _ H5), (str_in_true _ _ H6). by eexists.
  - intros H5 H6 H7. rewrite (str_in_false _ _ H5), (str_in_false _ _ H6), (str_in_true _ _ H7).
    by eexists.
  - intros H5 H6 H7. by rewrite (str_in_false _ _ H5), (str_in_false _ _ H6), (str_in_false _ _ H7).
Qed.

(* ------------------------------------------------------------------ *)
(** ** /broadcast *)

Lemma broadcast_loop_run (delivers : Z -> bool) (text : string) (us : list Z) (k : Z) (w : World) :
  broadcast_loop delivers text us k w =
    (Ok (k + Z.of_nat (length (List.filter (fun u => negb (delivers u)) us))),
     mkWorld (w_db w) (w_out w ++ map (fun u => SendMessage u text MK_none) (List.filter delivers us))).
Proof.
  revert k w. induction us as [|u us IH]; intros k w; simpl.
  - unfold ret. destruct w; simpl. rewrite app_nil_r. f_equal. f_equal. lia.
  - destruct (delivers u); simpl.
    + unfold bind, send_message, emit. rewrite IH. simpl. by rewrite <- app_assoc.
    + rewrite IH. f_equal. f_equal. lia.
Qed.

(** [broadcast] sends the text once to each user it can reach, in the
    order of the user table, leaves the report table alone, and its
    closing message counts exactly the users it could not reach. *)
Theorem broadcast_counts_unreached (users : list Z) (delivers : Z -> bool) (m : Message) (db : DB) :
  run (broadcast users delivers m) db =
    (Ok tt, mkWorld db
       (map (fun u => SendMessage u (m_text m) MK_none) (List.filter delivers users) ++
        [SendMessage (m_chat_id m)
           ("Mailing completed successfully!" +:+ nlS +:+ "The mailing was not received. " +:+
            py_str_Z (Z.of_nat (length (List.filter (fun u => negb (delivers u)) users))))
           MK_none])).
Proof.
  unfold run, broadcast, bind. rewrite broadcast_loop_run. simpl. reflexivity.
Qed.

(* ------------------------------------------------------------------ *)
(** ** Witnesses of the properties above *)

Ltac not_in := let H := fresh in intros H; repeat (destruct H as [H|H]; [discriminate H|]); exact H.

Definition ex_listing_call : Call := mkCall 20 "report_status_ACCEPTED" ex_report_msg.

Lemma admin_menu_actions_witness :
  get_admin_menu ex_cfg ex_listing_call =
    Some (MK_inline [("Reject error", "reject_report"); ("close error", "close_report")]) /\
  map snd (markup_buttons (MK_inline [("Reject error", "reject_report"); ("close error", "close_report")])) =
    ["reject_report"; "close_report"].
Proof.
  split; [reflexivity|].
  apply (proj2 (admin_menu_actions ex_cfg ex_listing_call)). reflexivity.
Defined.

Definition ex_nonadmin_call : Call := mkCall 30 "report_status_NEW" ex_report_msg.

Lemma menu_buttons_route_witness :
  In ("Report a bug!", "report")
     (markup_buttons (e_markup (back_func ex_cfg ex_nonadmin_call)) ++
      markup_buttons (e_markup (choose_report_types ex_cfg ex_nonadmin_call)) ++
      markup_buttons get_cancel_menu ++
      from_option markup_buttons [] (get_admin_menu ex_cfg ex_nonadmin_call)) /\
  callback_filter_raises "report" = false /\
  exists h, callback_targets "report" = [h] /\
    (is_admin ex_cfg 30 = false -> h = CB_callback_inline \/ h = CB_cancel_report).
Proof.
  split; [vm_compute; by left|].
  apply (menu_buttons_route ex_cfg ex_nonadmin_call ("Report a bug!", "report")).
  vm_compute. by left.
Defined.

Lemma link_buttons_route_witness :
  (forall s, LId_str "1" = LId_str s -> exists t, In s (split_ws t)) /\
  exists text bs,
    run (link_handling ex_link_msg (LId_str "1")) ex_db =
      (Ok tt, mkWorld ex_db [SendMessage (m_chat_id ex_link_msg) text (MK_inline bs)]) /\
    Forall (fun b => callback_targets (snd b) = [CB_accept_link] /\
                     callback_filter_raises (snd b) = false /\
                     py_index (split_ws (snd b)) 1 = Some (fmt_link_id (LId_str "1"))) bs.
Proof.
  assert (H : forall s, LId_str "1" = LId_str s -> exists t, In s (split_ws t)).
  { intros s [= <-]. exists "Report id: 1". vm_compute. right; right; by left. }
  split; [exact H|]. exact (link_buttons_route ex_db ex_link_msg (LId_str "1") H).
Defined.

Definition ex_get_reports : DB -> string -> list (Z * ReportRecord) :=
  fun db _ => map_to_list db.
Definition ex_timestamp : Z -> string := fun _ => "2023-05-01 10:00:00".
Definition ex_status_str : status -> string :=
  fun s => match s with NEW => "NEW" | ACCEPTED => "ACCEPTED" | REJECTED => "REJECTED" | CLOSED => "CLOSED" end.

Lemma list_reports_one_message_each_witness :
  exists mk,
    (is_admin ex_cfg 30 = false -> mk = MK_none) /\
    run (list_reports ex_cfg ex_get_reports ex_timestamp ex_status_str ex_nonadmin_call) ex_db =
      (Ok tt, mkWorld ex_db
         (map (fun '(i, r) => SendMessage (m_chat_id (c_message ex_nonadmin_call))
                                (report_text ex_timestamp ex_status_str i r) mk)
              (ex_get_reports ex_db (c_data ex_nonadmin_call)))).
Proof.
  exact (list_reports_one_message_each ex_cfg ex_get_reports ex_timestamp ex_status_str
           ex_nonadmin_call ex_db).
Defined.

Definition ex_listed_msg : Message :=
  mkMessage (-100) 5 20 (html_text (report_text ex_timestamp ex_status_str 1 ex_report)).

Lemma listed_report_actions_witness :
  ex_db !! 1 = Some ex_report /\
  run (change_report_status (mkCall 20 "reject_report" ex_listed_msg)) ex_db =
    (Ok tt, mkWorld (<[1 := Store.transition "reject_report" None ex_report]> ex_db)
       [SendMessage (-100) "The issue has been rejected." MK_none]).
Proof.
  split; [reflexivity|].
  apply (proj1 (listed_report_actions ex_db ex_timestamp ex_status_str 1 ex_report
                  (mkCall 20 "reject_report" ex_listed_msg) eq_refl eq_refl)).
  reflexivity.
Defined.

Lemma link_prompt_round_trip_witness :
  fmt_link_id (LId_int 1) = py_str_Z 1 /\
  exists text dc dr,
    run (link_handling ex_link_msg (LId_int 1)) ex_db =
      (Ok tt, mkWorld ex_db [SendMessage (m_chat_id ex_link_msg) text
                               (MK_inline [("Confirm", dc); ("Reject", dr)])]) /\
    (forall c : Call, c_data c = dr ->
       run (accept_link c) ex_db =
         (Ok tt, mkWorld ex_db
            [SendMessage (m_chat_id (c_message c)) "Please provide the link again." MK_none;
             RegisterNextStep (m_chat_id (c_message c)) (K_link_handling (LId_int 1))])) /\
    (forall (c : Call) (line link : string), c_data c = dc ->
       py_index (split_sep nl (m_text (c_message c))) 1 = Some line ->
       py_index (split_ws line) 1 = Some link ->
       run (accept_link c) ex_db =
         (Ok tt, mkWorld (Store.change_status ex_db (Some 1) "accept_report" (Some link))
            [SendMessage (m_chat_id (c_message c)) "The issue has been confirmed." MK_none])).
Proof.
  split; [reflexivity|]. exact (link_prompt_round_trip ex_db ex_link_msg (LId_int 1) 1 eq_refl).
Defined.

Definition ex_modulus_msg : Message := mkMessage 20 9 20 "12".

Lemma ring_output_unknown_command_witness :
  "idempotents@mathbot" <> "idempotents" /\ "idempotents@mathbot" <> "nilpotents" /\
  py_int (strip (m_text ex_modulus_msg)) = Some 12 /\ 2 <= 12 < MAX_MODULO ex_cfg /\
  run (ring_output ex_cfg (fun _ => []) (fun _ => []) ex_modulus_msg "idempotents@mathbot") ex_db =
    (Ok None, mkWorld ex_db []).
Proof.
  assert (H1 : "idempotents@mathbot" <> "idempotents") by discriminate.
  assert (H2 : "idempotents@mathbot" <> "nilpotents") by discriminate.
  assert (H3 : py_int (strip (m_text ex_modulus_msg)) = Some 12) by (vm_compute; reflexivity).
  assert (H4 : 2 <= 12 < MAX_MODULO ex_cfg) by (simpl; lia).
  do 4 (split; [assumption|]).
  exact (ring_output_unknown_command ex_cfg (fun _ => []) (fun _ => []) ex_modulus_msg
           "idempotents@mathbot" 12 ex_db H1 H2 H3 H4).
Defined.



Definition ex_det_msg : Message := mkMessage 20 1 20 "/det".
Definition ex_det_world : World :=
  mkWorld ex_db [SendMessage 20 "Enter the matrix: (in one message)" MK_hide_menu;
                 RegisterNextStep 20 (K_matrix_input "det")].
Definition ex_matrix_msg : Message := mkMessage 20 2 20 ("1 2" +:+ nlS +:+ "3 4").

Lemma matrix_commands_known_action_witness :
  run (det ex_det_msg) ex_db = (Ok tt, ex_det_world) /\
  In (RegisterNextStep (m_chat_id ex_det_msg) (K_matrix_input "det")) (w_out ex_det_world) /\
  exists w2, run (matrix_input ex_cfg no_matrix_action no_matrix_action no_matrix_action
                    ex_matrix_msg "det") ex_db = (Ok tt, w2).
Proof.
  assert (H0 : forall msg act mat w0,
     (exists v w1, no_matrix_action msg act mat w0 = (Ok v, w1)) /\
     (exists v w1, no_matrix_action msg act mat w0 = (Ok v, w1)) /\
     (exists v w1, no_matrix_action msg act mat w0 = (Ok v, w1))).
  { intros. repeat split; by eexists _, _. }
  assert (H1 : run (det ex_det_msg) ex_db = (Ok tt, ex_det_world)) by reflexivity.
  assert (H2 : In (RegisterNextStep (m_chat_id ex_det_msg) (K_matrix_input "det"))
                 (w_out ex_det_world)) by (simpl; right; by left).
  split; [exact H1|split; [exact H2|]].
  exact (proj2 (matrix_commands_known_action ex_cfg no_matrix_action no_matrix_action
                  no_matrix_action ex_det_msg ex_matrix_msg ex_db ex_db ex_det_world "det"
                  H0 (or_introl H1) H2)).
Defined.

Lemma factorize_output_out_of_range_witness :
  py_int (strip "1") = Some 1 /\ fmt_E 1000000000000 = Some "1.000000E+12" /\
  run (factorize_output 1000000000000 (list (Z * Z)) (fun _ => []) (fun _ => "")
         (mkMessage 20 9 20 "1")) ex_db =
    (Ok None, mkWorld ex_db
       [SendMessage 20
          "Factorization is available for positive integers n: 2 <= n <= 1.000000E+12" MK_none]).
Proof.
  assert (H : py_int (strip (m_text (mkMessage 20 9 20 "1"))) = Some 1) by (vm_compute; reflexivity).
  assert (Hlt : 1 < 2) by lia.
  assert (Hlim : fmt_E 1000000000000 = Some "1.000000E+12") by (vm_compute; reflexivity).
  split; [exact H|split; [exact Hlim|]].
  exact (factorize_output_out_of_range 1000000000000 (list (Z * Z)) (fun _ => []) (fun _ => "")
           (mkMessage 20 9 20 "1") 1 "1.000000E+12" ex_db H (or_introl Hlt) Hlim).
Defined.

Definition ex_ext_gcd (a b : Z) : Z * Z * Z := (Z.gcd a b, 0, 0).
Definition ex_two_spaces_msg : Message := mkMessage 20 9 20 "3  4".

Lemma euclid_output_needs_one_space_witness :
  count_char " " (strip (m_text ex_two_spaces_msg)) <> 1%nat /\
  run (euclid_output ex_ext_gcd ex_two_spaces_msg) ex_db =
    (Ok None, mkWorld ex_db [SendMessage 20 "Input data error" MK_menu]).
Proof.
  assert (H : count_char " " (strip (m_text ex_two_spaces_msg)) <> 1%nat)
    by (vm_compute; discriminate).
  split; [exact H|]. exact (euclid_output_needs_one_space ex_ext_gcd ex_two_spaces_msg ex_db H).
Defined.

Definition ex_euclid_msg : Message := mkMessage 20 9 20 "12 -18".

Lemma euclid_output_reads_numbers_witness :
  m_text ex_euclid_msg = py_str_Z 12 +:+ String " " (py_str_Z (-18)) /\
  exists answer rest,
    run (euclid_output ex_ext_gcd ex_euclid_msg) ex_db =
      (Ok (Some answer), mkWorld ex_db [SendMessage 20 answer MK_none]) /\
    answer = "GCD (Greatest Common Divisor)(" +:+ py_str_Z 12 +:+ ", " +:+ py_str_Z (-18) +:+
             ") = " +:+ py_str_Z (fst (fst (ex_ext_gcd 12 (-18)))) +:+ rest.
Proof.
  assert (H : m_text ex_euclid_msg = py_str_Z 12 +:+ String " " (py_str_Z (-18)))
    by (vm_compute; reflexivity).
  split; [exact H|]. exact (euclid_output_reads_numbers ex_ext_gcd ex_euclid_msg ex_db 12 (-18) H).
Defined.

Definition ex_zero_division : list string :=
  ["ZeroDivisionError"; "ArithmeticError"; "Exception"; "BaseException"; "object"].
Definition ex_safe_eval : string -> EvalOutcome := fun _ => EvalRaise ex_zero_division.
Definition ex_calc_msg : Message := mkMessage 20 9 20 "1/0".

Lemma calc_output_clause_order_witness :
  ~ In "InvalidSyntax" ex_zero_division /\ ~ In "InvalidName" ex_zero_division /\
  ~ In "InvalidArguments" ex_zero_division /\ ~ In "CalculationLimitError" ex_zero_division /\
  exists h, calc_output ex_safe_eval ex_calc_msg = Some h /\
    run h ex_db = (Ok None, mkWorld ex_db
      [SendMessage 20 "During execution, division by zero was encountered" MK_menu]).
Proof.
  assert (H1 : ~ In "InvalidSyntax" ex_zero_division) by not_in.
  assert (H2 : ~ In "InvalidName" ex_zero_division) by not_in.
  assert (H3 : ~ In "InvalidArguments" ex_zero_division) by not_in.
  assert (H4 : ~ In "CalculationLimitError" ex_zero_division) by not_in.
  do 4 (split; [assumption|]).
  apply (proj1 (calc_output_clause_order ex_safe_eval ex_calc_msg ex_db ex_zero_division
                  eq_refl H1 H2 H3 H4)).
  by left.
Defined.
